(** * har_to_openapi: HAR traffic log to OpenAPI document

    A shallow embedding of [src/har_to_openapi.py] and the properties of its
    schema inference, path standardisation, endpoint description and
    document assembly.

    Conventions of the embedding.
    - A Python [str] is a [string] of ASCII characters.  The type [ascii]
      also holds the code points 128 to 255: the patterns of
      [standardize_path] treat them as Python does (none is a digit or a
      letter of a class), while [lower] and [upper] leave them alone, which
      Python does not for accented letters.
    - A Python [dict] is an association list in insertion order whose keys
      are pairwise distinct; assigning to a key that is present replaces the
      value in place, assigning to a new key appends.
    - A decoded JSON value, and every dictionary the program builds, is a
      [pyval].
    - [json.loads], [urllib.parse.urlparse] and [urllib.parse.parse_qs] are
      library functions: the program is embedded over arbitrary ones
      (section variables); module [Lib] gives executable decoders for a
      fragment of their inputs, used to run the program on concrete logs. *)

From Stdlib Require Import List String Ascii Bool Arith ZArith Lia.
From Stdlib Require Import DecimalString DecimalNat SpecFloat.
Import ListNotations.
Open Scope list_scope.
Open Scope string_scope.
Set Warnings "-register-all".

(** ** Python strings *)

Module PyStr.

Definition newline : ascii := "010"%char.

(** [s.split(sep)] for a one-character separator: always at least one
    piece, empty pieces kept. *)
Fixpoint split (sep : ascii) (s : string) : list string :=
  match s with
  | EmptyString => [EmptyString]
  | String c rest =>
      if Ascii.eqb c sep then EmptyString :: split sep rest
      else match split sep rest with
           | [] => [String c EmptyString]
           | piece :: pieces => String c piece :: pieces
           end
  end.

(** [sep.join(pieces)]. *)
Definition join (sep : string) (pieces : list string) : string :=
  String.concat sep pieces.

(** [s.startswith(p)]. *)
Definition startswith (p s : string) : bool := String.prefix p s.

(** [s.replace(a, b)] for one-character [a] and [b]. *)
Fixpoint replace (a b : ascii) (s : string) : string :=
  match s with
  | EmptyString => EmptyString
  | String c rest => String (if Ascii.eqb c a then b else c) (replace a b rest)
  end.

Definition map_chars (f : ascii -> ascii) : string -> string :=
  fix go (s : string) : string :=
    match s with
    | EmptyString => EmptyString
    | String c rest => String (f c) (go rest)
    end.

Definition in_range (lo hi : nat) (c : ascii) : bool :=
  let n := nat_of_ascii c in Nat.leb lo n && Nat.leb n hi.

Definition lower_char (c : ascii) : ascii :=
  if in_range 65 90 c then ascii_of_nat (nat_of_ascii c + 32) else c.

Definition upper_char (c : ascii) : ascii :=
  if in_range 97 122 c then ascii_of_nat (nat_of_ascii c - 32) else c.

Definition lower : string -> string := map_chars lower_char.
Definition upper : string -> string := map_chars upper_char.

(** Truth value of a string: non-empty. *)
Definition nonempty (s : string) : bool :=
  match s with EmptyString => false | String _ _ => true end.

Fixpoint forall_chars (p : ascii -> bool) (s : string) : bool :=
  match s with
  | EmptyString => true
  | String c rest => p c && forall_chars p rest
  end.

Fixpoint has_char (c : ascii) (s : string) : bool :=
  match s with
  | EmptyString => false
  | String c' rest => Ascii.eqb c' c || has_char c rest
  end.

(** [str(n)] and the [{n}] of an f-string, for an [int]. *)
Definition of_nat (n : nat) : string :=
  NilEmpty.string_of_uint (Nat.to_uint n).

Definition of_Z (z : Z) : string :=
  NilZero.string_of_int (Z.to_int z).

End PyStr.

(** ** Python dictionaries *)

Module PyDict.
Section Dict.
Context {V : Type}.

(** [d.get(k)]. *)
Fixpoint get (k : string) (d : list (string * V)) : option V :=
  match d with
  | [] => None
  | (k', v) :: rest => if String.eqb k k' then Some v else get k rest
  end.

(** [k in d]. *)
Definition mem (k : string) (d : list (string * V)) : bool :=
  match get k d with Some _ => true | None => false end.

(** [d[k] = v]: in place when [k] is present, appended otherwise. *)
Fixpoint set (k : string) (v : V) (d : list (string * V)) : list (string * V) :=
  match d with
  | [] => [(k, v)]
  | (k', v') :: rest =>
      if String.eqb k k' then (k', v) :: rest else (k', v') :: set k v rest
  end.

(** [list(d.keys())]. *)
Definition keys (d : list (string * V)) : list string := map fst d.

(** [list(d.values())]. *)
Definition values (d : list (string * V)) : list V := map snd d.

(** The representation invariant: keys pairwise distinct. *)
Definition wf (d : list (string * V)) : Prop := NoDup (keys d).

(** Truth value of a dictionary: non-empty. *)
Definition nonempty (d : list (string * V)) : bool :=
  match d with [] => false | _ :: _ => true end.
End Dict.
End PyDict.

(** ** Python values *)

(** What [json.loads] can return, and what the program builds. *)
Inductive pyval : Type :=
| PNone
| PBool (b : bool)
| PInt (z : Z)
| PFloat (x : spec_float)
| PStr (s : string)
| PList (items : list pyval)
| PDict (items : list (string * pyval)).

Definition pydict := list (string * pyval).

(** The classes tested by the program. *)
Inductive pytype := Tdict | Tlist | Tbool | Tint | Tfloat | Tstr.

(** [isinstance(v, t)].  [bool] is a subclass of [int]. *)
Definition isinstance (v : pyval) (t : pytype) : bool :=
  match v, t with
  | PDict _, Tdict => true
  | PList _, Tlist => true
  | PBool _, Tbool => true
  | PBool _, Tint => true
  | PInt _, Tint => true
  | PFloat _, Tfloat => true
  | PStr _, Tstr => true
  | _, _ => false
  end.

(** [v is not None]. *)
Definition is_not_none (v : pyval) : bool :=
  match v with PNone => false | _ => true end.

(** ** Schema inference *)

(** The body of the loop [for key, value in data.items()] of
    [generate_schema], over the state [(properties, required)]. *)
Definition schema_of_items (gen : pyval -> pyval)
  : list (string * pyval) -> pydict * list string -> pydict * list string :=
  fix loop items st :=
    match items with
    | [] => st
    | (key, value) :: rest =>
        let properties := PyDict.set key (gen value) (fst st) in
        let required :=
          if is_not_none value then (snd st ++ [key])%list else snd st in
        loop rest (properties, required)
    end.

(** [required if required else None]. *)
Definition required_or_none (required : list string) : pyval :=
  match required with
  | [] => PNone
  | _ :: _ => PList (map PStr required)
  end.

(** [generate_schema(data)], the [if]/[elif] chain in the order of the
    source. *)
Fixpoint generate_schema (data : pyval) : pyval :=
  if isinstance data Tdict then
    match data with
    | PDict items =>
        let st := schema_of_items generate_schema items ([], []) in
        PDict [("type", PStr "object");
               ("properties", PDict (fst st));
               ("required", required_or_none (snd st))]
    | _ => PDict [("type", PStr "null")]
    end
  else if isinstance data Tlist then
    match data with
    | PList (first :: _) =>
        PDict [("type", PStr "array"); ("items", generate_schema first)]
    | _ => PDict [("type", PStr "array")]
    end
  else if isinstance data Tbool then PDict [("type", PStr "boolean")]
  else if isinstance data Tint then PDict [("type", PStr "integer")]
  else if isinstance data Tfloat then PDict [("type", PStr "number")]
  else if isinstance data Tstr then PDict [("type", PStr "string")]
  else PDict [("type", PStr "null")].

(** The names listed under ["required"] in a schema; none when the entry is
    absent or [None]. *)
Definition required_names (schema : pyval) : list string :=
  match schema with
  | PDict items =>
      match PyDict.get "required" items with
      | Some (PList names) =>
          flat_map (fun n => match n with PStr s => [s] | _ => [] end) names
      | _ => []
      end
  | _ => []
  end.

(** [schema.get(k)] on a schema dictionary. *)
Definition schema_get (k : string) (schema : pyval) : option pyval :=
  match schema with
  | PDict items => PyDict.get k items
  | _ => None
  end.

(** ** Regular expressions of the path patterns *)

Module Re.

(** An anchored pattern [^ item ... item $]: an item is a character class
    with a repetition range, [cls{lo,hi}] ([hi = None]: unbounded), or one
    literal character. *)
Inductive item : Type :=
| Chars (cls : ascii -> bool) (lo : nat) (hi : option nat)
| Lit (c : ascii).

(** [$]: the end of the string, or just before a newline that ends it. *)
Definition dollar (s : string) : bool :=
  match s with
  | EmptyString => true
  | String c EmptyString => Ascii.eqb c PyStr.newline
  | String _ (String _ _) => false
  end.

(** Between [lo] and [hi] characters of [cls], then [k] on what is left. *)
Fixpoint repeat_then (cls : ascii -> bool) (k : string -> bool)
         (lo : nat) (hi : option nat) (s : string) {struct s} : bool :=
  (Nat.eqb lo 0 && k s) ||
  match s with
  | EmptyString => false
  | String c rest =>
      match hi with
      | Some 0 => false
      | _ => cls c && repeat_then cls k (Nat.pred lo) (option_map Nat.pred hi) rest
      end
  end.

(** [re.match(pattern, s)] as a truth value, for an anchored pattern. *)
Fixpoint matches (pattern : list item) (s : string) : bool :=
  match pattern with
  | [] => dollar s
  | Lit c :: pattern' =>
      match s with
      | EmptyString => false
      | String c' rest => Ascii.eqb c' c && matches pattern' rest
      end
  | Chars cls lo hi :: pattern' => repeat_then cls (matches pattern') lo hi s
  end.

(** [\d] on code points below 256. *)
Definition digit (c : ascii) : bool := PyStr.in_range 48 57 c.

(** [[a-f0-9]]. *)
Definition hex (c : ascii) : bool :=
  PyStr.in_range 97 102 c || PyStr.in_range 48 57 c.

(** [[a-zA-Z0-9_-]]. *)
Definition word (c : ascii) : bool :=
  PyStr.in_range 97 122 c || PyStr.in_range 65 90 c || PyStr.in_range 48 57 c
  || Ascii.eqb c "_" || Ascii.eqb c "-".

End Re.

(** ** Path standardisation *)

(** The table [patterns] of [standardize_path], in its order. *)
Definition patterns : list (list Re.item * string) :=
  [ ([Re.Chars Re.digit 1 None], "id");
    ([Re.Chars Re.hex 8 (Some 8); Re.Lit "-";
      Re.Chars Re.hex 4 (Some 4); Re.Lit "-";
      Re.Chars Re.hex 4 (Some 4); Re.Lit "-";
      Re.Chars Re.hex 4 (Some 4); Re.Lit "-";
      Re.Chars Re.hex 12 (Some 12)], "uuid");
    ([Re.Chars Re.hex 32 (Some 32)], "hash");
    ([Re.Chars Re.word 20 None], "token") ].

(** The inner loop [for pattern, param_type in patterns] up to its [break]:
    the kind of the first pattern that matches. *)
Fixpoint first_match (ps : list (list Re.item * string)) (segment : string)
  : option string :=
  match ps with
  | [] => None
  | (pattern, param_type) :: rest =>
      if Re.matches pattern segment then Some param_type
      else first_match rest segment
  end.

(** The kind of a segment the loop rewrites: empty segments are skipped. *)
Definition classify (segment : string) : option string :=
  if PyStr.nonempty segment then first_match patterns segment else None.

(** [f"{param_type}_{i}" if i > 0 else param_type]. *)
Definition param_name (param_type : string) (i : nat) : string :=
  if Nat.ltb 0 i then param_type ++ "_" ++ PyStr.of_nat i else param_type.

(** [f"{{{param_name}}}"]. *)
Definition placeholder (name : string) : string := "{" ++ name ++ "}".

(** The loop [for i, segment in enumerate(segments)] from index [i] on:
    the rewritten segments and the mapping after the loop. *)
Fixpoint standardize_segments (i : nat) (segments : list string)
         (param_mapping : list (string * string))
  : list string * list (string * string) :=
  match segments with
  | [] => ([], param_mapping)
  | segment :: rest =>
      match classify segment with
      | None =>
          let (out, m) := standardize_segments (S i) rest param_mapping in
          (segment :: out, m)
      | Some param_type =>
          let name := param_name param_type i in
          let (out, m) :=
            standardize_segments (S i) rest (PyDict.set segment name param_mapping) in
          (placeholder name :: out, m)
      end
  end.

(** [standardize_path(path)]. *)
Definition standardize_path (path : string) : string * list (string * string) :=
  let segments := PyStr.split "/" path in
  let (segments', param_mapping) := standardize_segments 0 segments [] in
  (PyStr.join "/" segments', param_mapping).

(** ** Traffic entries *)

(** [urlparse]'s result. *)
Record ParseResult : Type := {
  scheme : string;
  netloc : string;
  path : string;
  params : string;
  query : string;
  fragment : string
}.

(** One entry of [log.entries].  A field is [None] when its key is absent.
    The fields the converter hands to string and integer operations are
    typed after the HAR format; [postData] and [content], which it only
    probes with [.get] and truth tests, stay dictionaries. *)
Module Har.
Record Request : Type := {
  url : option string;
  method : option string;
  postData : option pydict
}.
Record Response : Type := {
  status : option Z;
  statusText : option string;
  content : option pydict
}.
Record Entry : Type := {
  request : option Request;
  response : option Response
}.

(** [entry.get('request', {})] and [entry.get('response', {})]. *)
Definition request_of (e : Entry) : Request :=
  match request e with
  | Some r => r
  | None => {| url := None; method := None; postData := None |}
  end.
Definition response_of (e : Entry) : Response :=
  match response e with
  | Some r => r
  | None => {| status := None; statusText := None; content := None |}
  end.
End Har.

(** [o.get(key, default)] on an optional field. *)
Definition get_or {A : Type} (default : A) (o : option A) : A :=
  match o with Some a => a | None => default end.

(** [d.get('text', '{}')] on a body dictionary. *)
Definition body_text (d : pydict) : pyval :=
  get_or (PStr "{}") (PyDict.get "text" d).

(** ** Executable library decoders *)

(** Decoders for a fragment of the inputs of the three library functions,
    so that the converter runs on concrete logs.  Each agrees with the
    library on the fragment it names; the properties below hold for every
    decoder and use these only at inputs of the fragment. *)
Module Lib.

Definition dquote : ascii := "034"%char.
Definition backslash : ascii := "092"%char.

(** A JSON string literal: [s] between double quotes. *)
Definition quoted (s : string) : string :=
  String dquote (s ++ String dquote EmptyString).

Definition is_ws (c : ascii) : bool :=
  Ascii.eqb c " " || Ascii.eqb c "009" || Ascii.eqb c "010" || Ascii.eqb c "013".

Fixpoint skip_ws (s : string) : string :=
  match s with
  | EmptyString => EmptyString
  | String c rest => if is_ws c then skip_ws rest else s
  end.

Fixpoint strip_prefix (p s : string) : option string :=
  match p, s with
  | EmptyString, _ => Some s
  | String a p', String b s' => if Ascii.eqb a b then strip_prefix p' s' else None
  | String _ _, EmptyString => None
  end.

(** The digits at the head of [s], as a number, and what follows. *)
Fixpoint take_digits (acc : Z) (s : string) : Z * string :=
  match s with
  | String c rest =>
      if Re.digit c
      then take_digits (10 * acc + Z.of_nat (nat_of_ascii c - 48)) rest
      else (acc, s)
  | EmptyString => (acc, s)
  end.

(** After an integer literal: a fraction or exponent would make it a
    float, outside the fragment. *)
Definition no_float_tail (s : string) : bool :=
  match s with
  | String c _ => negb (Ascii.eqb c "." || Ascii.eqb c "e" || Ascii.eqb c "E")
  | EmptyString => true
  end.

(** [0] or [[1-9][0-9]*]. *)
Definition parse_nat (s : string) : option (Z * string) :=
  match s with
  | String c rest =>
      if Ascii.eqb c "0" then Some (0%Z, rest)
      else if Re.digit c then Some (take_digits 0 s)
      else None
  | EmptyString => None
  end.

Definition parse_int (s : string) : option (pyval * string) :=
  let signed :=
    match s with
    | String "-" rest => option_map (fun zr => (Z.opp (fst zr), snd zr)) (parse_nat rest)
    | _ => parse_nat s
    end in
  match signed with
  | Some (z, rest) => if no_float_tail rest then Some (PInt z, rest) else None
  | None => None
  end.

Definition unescape (c : ascii) : option ascii :=
  if Ascii.eqb c dquote then Some dquote
  else if Ascii.eqb c backslash then Some backslash
  else if Ascii.eqb c "/" then Some "/"%char
  else if Ascii.eqb c "b" then Some "008"%char
  else if Ascii.eqb c "f" then Some "012"%char
  else if Ascii.eqb c "n" then Some "010"%char
  else if Ascii.eqb c "r" then Some "013"%char
  else if Ascii.eqb c "t" then Some "009"%char
  else None.

(** The body of a string literal, after its opening quote. *)
Fixpoint parse_string (s : string) : option (string * string) :=
  match s with
  | EmptyString => None
  | String c rest =>
      if Ascii.eqb c dquote then Some (EmptyString, rest)
      else if Ascii.eqb c backslash then
        match rest with
        | String e rest' =>
            match unescape e, parse_string rest' with
            | Some c', Some (body, after) => Some (String c' body, after)
            | _, _ => None
            end
        | EmptyString => None
        end
      else if Nat.ltb (nat_of_ascii c) 32 then None
      else match parse_string rest with
           | Some (body, after) => Some (String c body, after)
           | None => None
           end
  end.

Fixpoint parse_value (fuel : nat) (s : string) {struct fuel}
  : option (pyval * string) :=
  match fuel with
  | O => None
  | S fuel' =>
      match strip_prefix "null" s, strip_prefix "true" s, strip_prefix "false" s with
      | Some rest, _, _ => Some (PNone, rest)
      | _, Some rest, _ => Some (PBool true, rest)
      | _, _, Some rest => Some (PBool false, rest)
      | None, None, None =>
          match s with
          | String "[" rest =>
              match skip_ws rest with
              | String "]" after => Some (PList [], after)
              | rest' => parse_elements fuel' rest' []
              end
          | String "{" rest =>
              match skip_ws rest with
              | String "}" after => Some (PDict [], after)
              | rest' => parse_members fuel' rest' []
              end
          | String c rest =>
              if Ascii.eqb c dquote
              then option_map (fun br => (PStr (fst br), snd br)) (parse_string rest)
              else parse_int s
          | EmptyString => None
          end
      end
  end
with parse_elements (fuel : nat) (s : string) (acc : list pyval) {struct fuel}
  : option (pyval * string) :=
  match fuel with
  | O => None
  | S fuel' =>
      match parse_value fuel' s with
      | Some (v, rest) =>
          match skip_ws rest with
          | String "," rest' => parse_elements fuel' (skip_ws rest') (acc ++ [v])%list
          | String "]" after => Some (PList (acc ++ [v])%list, after)
          | _ => None
          end
      | None => None
      end
  end
with parse_members (fuel : nat) (s : string) (acc : pydict) {struct fuel}
  : option (pyval * string) :=
  match fuel with
  | O => None
  | S fuel' =>
      match s with
      | String c rest =>
          if Ascii.eqb c dquote then
            match parse_string rest with
            | Some (key, rest1) =>
                match skip_ws rest1 with
                | String ":" rest2 =>
                    match parse_value fuel' (skip_ws rest2) with
                    | Some (v, rest3) =>
                        match skip_ws rest3 with
                        | String "," rest4 =>
                            parse_members fuel' (skip_ws rest4) (PyDict.set key v acc)
                        | String "}" after => Some (PDict (PyDict.set key v acc), after)
                        | _ => None
                        end
                    | None => None
                    end
                | _ => None
                end
            | None => None
            end
          else None
      | EmptyString => None
      end
  end.

(** [json.loads] on the fragment of JSON without floats, [NaN],
    [Infinity] and [\u] escapes over code points below 256. *)
Definition json_loads (s : string) : option pyval :=
  match parse_value (2 * String.length s + 2) (skip_ws s) with
  | Some (v, rest) =>
      match skip_ws rest with
      | EmptyString => Some v
      | String _ _ => None
      end
  | None => None
  end.

(** [s] cut at the first character satisfying [p]: what is before, and
    what starts there. *)
Fixpoint break_at (p : ascii -> bool) (s : string) : string * string :=
  match s with
  | EmptyString => (EmptyString, EmptyString)
  | String c rest =>
      if p c then (EmptyString, s)
      else let (before, from) := break_at p rest in (String c before, from)
  end.

(** [s.split(c, 1)] when [c] occurs in [s]. *)
Definition cut (c : ascii) (s : string) : option (string * string) :=
  match break_at (Ascii.eqb c) s with
  | (before, String _ after) => Some (before, after)
  | (_, EmptyString) => None
  end.

Definition alpha (c : ascii) : bool :=
  PyStr.in_range 97 122 c || PyStr.in_range 65 90 c.

Definition scheme_char (c : ascii) : bool :=
  alpha c || Re.digit c || Ascii.eqb c "+" || Ascii.eqb c "-" || Ascii.eqb c ".".

(** [urlparse] on URLs of printable characters without space, [;], [[]
    and []], and with something else than digits after a first colon. *)
Definition urlparse (url : string) : ParseResult :=
  let (scheme, url) :=
    match cut ":" url with
    | Some (String c _ as before, after) =>
        if alpha c && PyStr.forall_chars scheme_char before
        then (PyStr.lower before, after) else (EmptyString, url)
    | _ => (EmptyString, url)
    end in
  let (netloc, url) :=
    match url with
    | String "/" (String "/" rest) =>
        break_at (fun c => Ascii.eqb c "/" || Ascii.eqb c "?" || Ascii.eqb c "#") rest
    | _ => (EmptyString, url)
    end in
  let (url, fragment) := get_or (url, EmptyString) (cut "#" url) in
  let (url, query) := get_or (url, EmptyString) (cut "?" url) in
  {| scheme := scheme; netloc := netloc; path := url; params := EmptyString;
     query := query; fragment := fragment |}.

(** [parse_qs] on query strings without [%] and [+]: fields without
    [=] or with an empty value are dropped. *)
Definition parse_qs (qs : string) : list (string * list string) :=
  fold_left
    (fun parsed name_value =>
       match cut "=" name_value with
       | Some (name, String _ _ as value) =>
           match PyDict.get name parsed with
           | Some values => PyDict.set name (values ++ [value])%list parsed
           | None => PyDict.set name [value] parsed
           end
       | _ => parsed
       end)
    (PyStr.split "&" qs) [].

End Lib.

(** ** Example inputs *)

(** The path of the specification's example. *)
Definition example_path : string :=
  "/users/1000140/orders/3f29c4a1b2e3445e9aa1d2c3b4e5f6a7".

(** A path with the literal [5] at positions 1 and 3 of its split. *)
Definition repeated_path : string := "/5/things/5".

(** A [GET] exchange answered [200 OK] with the given body text. *)
Definition get_entry (url body : string) : Har.Entry :=
  {| Har.request :=
       Some {| Har.url := Some url; Har.method := Some "GET";
               Har.postData := None |};
     Har.response :=
       Some {| Har.status := Some 200%Z; Har.statusText := Some "OK";
               Har.content :=
                 Some [("mimeType", PStr "application/json");
                       ("text", PStr body)] |} |}.

(** [GET /users/1] answered [{"id": 1}] and [GET /users/2] answered
    [{"id": 2, "name": "x"}]. *)
Definition users_1 : Har.Entry :=
  get_entry "https://api.example.com/users/1"
    ("{" ++ Lib.quoted "id" ++ ": 1}").
Definition users_2 : Har.Entry :=
  get_entry "https://api.example.com/users/2"
    ("{" ++ Lib.quoted "id" ++ ": 2, " ++ Lib.quoted "name" ++ ": "
         ++ Lib.quoted "x" ++ "}").

(** An exchange over a scheme that is neither [http] nor [https]. *)
Definition httpx_entry : Har.Entry :=
  get_entry "httpx://example.com/users/1" "{}".

(** An exchange whose request and response bodies are not JSON. *)
Definition html_entry : Har.Entry :=
  {| Har.request :=
       Some {| Har.url := Some "https://example.com/items";
               Har.method := Some "POST";
               Har.postData := Some [("mimeType", PStr "text/html");
                                     ("text", PStr "<html>")] |};
     Har.response :=
       Some {| Har.status := Some 200%Z; Har.statusText := Some "OK";
               Har.content := Some [("mimeType", PStr "text/html");
                                    ("text", PStr "<html>")] |} |}.

(** An exchange answered with the empty JSON array. *)
Definition empty_list_entry : Har.Entry :=
  get_entry "https://example.com/items" "[]".

(** ** Notions used to state the properties *)

(** The four kinds of the pattern table. *)
Definition kinds : list string := map snd patterns.

(** What the loop of [standardize_path] leaves at index [i]. *)
Definition rewritten (i : nat) (segment : string) : string :=
  match classify segment with
  | Some param_type => placeholder (param_name param_type i)
  | None => segment
  end.

Fixpoint rewrite_from (i : nat) (segments : list string) : list string :=
  match segments with
  | [] => []
  | segment :: rest => rewritten i segment :: rewrite_from (S i) rest
  end.

(** The name the loop, run from index [i], last assigns to [literal];
    [before] when it assigns none. *)
Fixpoint last_name (i : nat) (segments : list string) (literal : string)
         (before : option string) : option string :=
  match segments with
  | [] => before
  | segment :: rest =>
      last_name (S i) rest literal
        (match classify segment with
         | Some param_type =>
             if String.eqb literal segment then Some (param_name param_type i)
             else before
         | None => before
         end)
  end.

(** [operation['parameters']], empty when the key is absent. *)
Definition operation_parameters (operation : pydict) : list pyval :=
  match PyDict.get "parameters" operation with
  | Some (PList ps) => ps
  | _ => []
  end.

(** A parameter object with ["in": "path"]. *)
Definition is_path_parameter (p : pyval) : bool :=
  match schema_get "in" p with
  | Some (PStr kind) => String.eqb kind "path"
  | _ => false
  end.

(** [openapi_spec['paths']] maps each template to a dictionary of methods,
    with no template and no method listed twice. *)
Definition paths_wf (paths : pydict) : Prop :=
  PyDict.wf paths
  /\ forall template v, In (template, v) paths ->
       exists methods, v = PDict methods /\ PyDict.wf methods.

Section Converter.

(** [json.loads] on a string: [None] when it raises. *)
Variable json_loads : string -> option pyval.
(** [urllib.parse.urlparse]. *)
Variable urlparse : string -> ParseResult.
(** [urllib.parse.parse_qs]: field name to values, in order of first
    occurrence. *)
Variable parse_qs : string -> list (string * list string).

(** [json.loads(v)] on any value: a non-string argument raises. *)
Definition loads (v : pyval) : option pyval :=
  match v with
  | PStr s => json_loads s
  | _ => None
  end.

(** [extract_schema_from_json(json_str)]: any exception gives [{}]. *)
Definition extract_schema_from_json (json_str : pyval) : pyval :=
  match loads json_str with
  | Some data => generate_schema data
  | None => PDict []
  end.

(** *** Endpoint description *)

(** [path_parts[-1] if path_parts else 'resource']. *)
Definition resource_of (path : string) : string :=
  let path_parts := filter PyStr.nonempty (PyStr.split "/" path) in
  last path_parts "resource".

Definition method_desc (method : string) : string :=
  get_or "Process"
    (PyDict.get (PyStr.lower method)
       [("get", "Retrieve"); ("post", "Create"); ("put", "Update");
        ("patch", "Partially update"); ("delete", "Delete")]).

(** The [try] block over the request body. *)
Definition field_desc (request : Har.Request) : string :=
  let request_body := body_text (get_or [] (Har.postData request)) in
  match loads request_body with
  | Some (PDict request_data) =>
      let fields := PyDict.keys request_data in
      match fields with
      | _ :: _ => " with fields: " ++ PyStr.join ", " fields
      | [] => ""
      end
  | Some _ => ""
  | None => ""
  end.

(** The [try] block over the response body. *)
Definition response_desc (resource : string) (response : Har.Response) : string :=
  let response_body := body_text (get_or [] (Har.content response)) in
  match loads response_body with
  | Some (PDict response_data) =>
      let response_fields := PyDict.keys response_data in
      match response_fields with
      | _ :: _ => " Returns data with fields: " ++ PyStr.join ", " response_fields
      | [] => ""
      end
  | Some (PList _) => " Returns a list of " ++ resource ++ "s"
  | Some _ => ""
  | None => ""
  end.

(** The status annotation. *)
Definition status_note (status : Z) : string :=
  if (200 <=? status)%Z && (status <? 300)%Z
  then " (Success: " ++ PyStr.of_Z status ++ ")"
  else if (400 <=? status)%Z
  then " (Error: " ++ PyStr.of_Z status ++ ")"
  else "".

(** [generate_endpoint_description(path, method, request, response)]. *)
Definition generate_endpoint_description
           (path method : string) (request : Har.Request)
           (response : Har.Response) : string :=
  let resource := resource_of path in
  let status := get_or 200%Z (Har.status response) in
  let description := method_desc method ++ " " ++ resource in
  let fd := field_desc request in
  let rd := response_desc resource response in
  let description := if PyStr.nonempty fd then description ++ fd else description in
  let description := if PyStr.nonempty rd then description ++ rd else description in
  description ++ status_note status.

(** *** Document assembly *)

Definition string_schema : pyval := PDict [("type", PStr "string")].

Definition query_parameter (param_name : string) : pyval :=
  PDict [("name", PStr param_name);
         ("in", PStr "query");
         ("required", PBool true);
         ("description", PStr ("Query parameter: " ++ param_name));
         ("schema", string_schema)].

Definition path_parameter (item : string * string) : pyval :=
  let (original_value, param_name) := item in
  PDict [("name", PStr param_name);
         ("in", PStr "path");
         ("required", PBool true);
         ("description",
          PStr ("Path parameter: " ++ param_name ++ " (e.g., " ++ original_value ++ ")"));
         ("schema", string_schema)].

Definition json_content (schema : pyval) : pyval :=
  PDict [("application/json", PDict [("schema", schema)])].

(** [operation['parameters'].append(p)] for each [p] of [ps]. *)
Definition append_parameters (ps : list pyval) (operation : pydict) : pydict :=
  match PyDict.get "parameters" operation with
  | Some (PList old) => PyDict.set "parameters" (PList (old ++ ps)%list) operation
  | _ => operation
  end.

(** [if request.get('postData'): operation['requestBody'] = ...]. *)
Definition add_request_body (request : Har.Request) (operation : pydict) : pydict :=
  match Har.postData request with
  | Some ((_ :: _) as post_data) =>
      PyDict.set "requestBody"
        (PDict [("description",
                 PStr "Request body containing the data to be processed");
                ("content",
                 json_content (extract_schema_from_json (body_text post_data)))])
        operation
  | _ => operation
  end.

(** [if query_params: operation['parameters'] = [...]]. *)
Definition add_query_parameters (parsed_url : ParseResult) (operation : pydict)
  : pydict :=
  let query_params := parse_qs (query parsed_url) in
  if PyDict.nonempty query_params
  then PyDict.set "parameters"
         (PList (map query_parameter (PyDict.keys query_params))) operation
  else operation.

(** [if param_mapping: ...], appending one parameter per mapping entry. *)
Definition add_path_parameters (param_mapping : list (string * string))
           (operation : pydict) : pydict :=
  if PyDict.nonempty param_mapping
  then
    let operation :=
      if PyDict.mem "parameters" operation then operation
      else PyDict.set "parameters" (PList []) operation in
    append_parameters (map path_parameter param_mapping) operation
  else operation.

(** The operation built for an entry that is not skipped. *)
Definition make_operation (path : string) (param_mapping : list (string * string))
           (method : string) (parsed_url : ParseResult)
           (request : Har.Request) (response : Har.Response) : pydict :=
  let description := generate_endpoint_description path method request response in
  let operation :=
    [("summary", PStr (PyStr.upper method ++ " " ++ path));
     ("description", PStr description);
     ("operationId", PStr (method ++ "_" ++ PyStr.replace "/" "_" path));
     ("responses",
      PDict [(PyStr.of_Z (get_or 200%Z (Har.status response)),
              PDict [("description", PStr (get_or "" (Har.statusText response)));
                     ("content",
                      json_content
                        (extract_schema_from_json
                           (body_text (get_or [] (Har.content response)))))])])] in
  add_path_parameters param_mapping
    (add_query_parameters parsed_url (add_request_body request operation)).

(** [if path_prefix]: given and non-empty. *)
Definition prefix_given (path_prefix : option string) : bool :=
  match path_prefix with
  | Some p => PyStr.nonempty p
  | None => false
  end.

(** The two [continue] tests of the loop. *)
Definition skipped (path_prefix : option string) (entry : Har.Entry) : bool :=
  let parsed_url := urlparse (get_or "" (Har.url (Har.request_of entry))) in
  if negb (PyStr.startswith "http" (scheme parsed_url)) then true
  else prefix_given path_prefix
       && negb (PyStr.startswith (get_or "" path_prefix) (path parsed_url)).

(** The (template, method) key of an entry. *)
Definition entry_path (entry : Har.Entry) : string :=
  fst (standardize_path
         (path (urlparse (get_or "" (Har.url (Har.request_of entry)))))).
Definition entry_method (entry : Har.Entry) : string :=
  PyStr.lower (get_or "GET" (Har.method (Har.request_of entry))).

(** The operation derived from an entry alone. *)
Definition entry_operation (entry : Har.Entry) : pydict :=
  let request := Har.request_of entry in
  let parsed_url := urlparse (get_or "" (Har.url request)) in
  let (path, param_mapping) := standardize_path (path parsed_url) in
  make_operation path param_mapping (entry_method entry) parsed_url
    request (Har.response_of entry).

(** [paths[path][method] = operation], after
    [if path not in paths: paths[path] = {}]. *)
Definition store_operation (path method : string) (operation : pydict)
           (paths : pydict) : pydict :=
  let paths := if PyDict.mem path paths then paths
               else PyDict.set path (PDict []) paths in
  match PyDict.get path paths with
  | Some (PDict methods) =>
      PyDict.set path (PDict (PyDict.set method (PDict operation) methods)) paths
  | _ => paths
  end.

(** One iteration of [for entry in entries], on [openapi_spec['paths']]. *)
Definition process_entry (path_prefix : option string) (paths : pydict)
           (entry : Har.Entry) : pydict :=
  if skipped path_prefix entry then paths
  else store_operation (entry_path entry) (entry_method entry)
         (entry_operation entry) paths.

(** [openapi_spec['paths']] after the loop. *)
Definition assemble_paths (entries : list Har.Entry)
           (path_prefix : option string) : pydict :=
  fold_left (process_entry path_prefix) entries [].

(** [convert_har_to_openapi], on the decoded [log.entries] of the file. *)
Definition convert_har_to_openapi (entries : list Har.Entry)
           (path_prefix : option string) : pyval :=
  PDict
    [("openapi", PStr "3.0.0");
     ("info",
      PDict [("title", PStr "API Specification");
             ("version", PStr "1.0.0");
             ("description",
              PStr ("Generated from HAR file" ++
                    (if prefix_given path_prefix
                     then " (filtered by path prefix: " ++ get_or "" path_prefix ++ ")"
                     else "")))]);
     ("paths", PDict (assemble_paths entries path_prefix));
     ("components",
      PDict [("schemas", PDict []);
             ("securitySchemes",
              PDict [("cookieAuth",
                      PDict [("type", PStr "apiKey");
                             ("in", PStr "cookie");
                             ("name", PStr "session")])])]);
     ("security", PList [PDict [("cookieAuth", PList [])]])].

(** [document['paths'][path][method]]. *)
Definition operation_at (document : pyval) (path method : string) : option pyval :=
  match schema_get "paths" document with
  | Some (PDict paths) =>
      match PyDict.get path paths with
      | Some (PDict methods) => PyDict.get method methods
      | _ => None
      end
  | _ => None
  end.

End Converter.

(** ** Path parameters of a URL pattern *)

(** The longest run of characters other than [/] at the head of [s]: what
    a greedy [[^/]+] first takes. *)
Fixpoint run_to_slash (s : string) : string :=
  match s with
  | EmptyString => EmptyString
  | String c rest =>
      if Ascii.eqb c "/" then EmptyString else String c (run_to_slash rest)
  end.

(** The part of [run] before its last [}]: the longest text that
    [[^/]+] can keep, within [run], with a [}] right after it. *)
Fixpoint before_last_brace (run : string) : option string :=
  match run with
  | EmptyString => None
  | String c rest =>
      match before_last_brace rest with
      | Some group => Some (String c group)
      | None => if Ascii.eqb c "}" then Some EmptyString else None
      end
  end.

(** One attempt of [/{([^/]+)}|/:([^/]+)] at the head of [s]: the two
    groups (an unused group is empty) and the number of characters
    matched. *)
Definition match_parameter (s : string) : option (string * string * nat) :=
  match s with
  | String "/" (String "{" rest) =>
      match before_last_brace (run_to_slash rest) with
      | Some (String _ _ as group) =>
          Some (group, EmptyString, 3 + String.length group)
      | _ => None
      end
  | String "/" (String ":" rest) =>
      match run_to_slash rest with
      | String _ _ as group => Some (EmptyString, group, 2 + String.length group)
      | EmptyString => None
      end
  | _ => None
  end.

(** [re.findall] of that pattern: attempts from left to right, the next
    one where the last match ended; [skip] characters are still inside
    the last match. *)
Fixpoint findall_parameters (skip : nat) (s : string) : list (string * string) :=
  match s with
  | EmptyString => []
  | String _ rest =>
      match skip with
      | S skip' => findall_parameters skip' rest
      | O =>
          match match_parameter s with
          | Some (group1, group2, matched) =>
              (group1, group2) :: findall_parameters (matched - 1) rest
          | None => findall_parameters 0 rest
          end
      end
  end.

(** [extract_path_parameters(url)]. *)
Definition extract_path_parameters (url : string) : list string :=
  map (fun param => if PyStr.nonempty (fst param) then fst param else snd param)
      (findall_parameters 0 url).

(** ** Merging two documents *)

(** What a call does: it returns, it raises, or it reaches a dictionary
    with a key that is not a string, which [pyval] does not hold; nothing
    is said of the call from there on. *)
Inductive outcome (A : Type) : Type :=
| Returns (a : A)
| Raises
| Unrepresentable.
Arguments Returns {A} a.
Arguments Raises {A}.
Arguments Unrepresentable {A}.

Definition bind {A B : Type} (o : outcome A) (k : A -> outcome B) : outcome B :=
  match o with
  | Returns a => k a
  | Raises => Raises
  | Unrepresentable => Unrepresentable
  end.

(** [needle in hay] for two strings. *)
Fixpoint contains (needle hay : string) : bool :=
  String.prefix needle hay
  || match hay with
     | EmptyString => false
     | String _ rest => contains needle rest
     end.

(** [key in container]: keys of a dictionary, elements of a list,
    substrings of a string; the other values are not containers. *)
Definition py_in (key : string) (container : pyval) : outcome bool :=
  match container with
  | PDict items => Returns (PyDict.mem key items)
  | PList elements =>
      Returns (existsb (fun e => match e with
                                 | PStr s => String.eqb s key
                                 | _ => false
                                 end) elements)
  | PStr s => Returns (contains key s)
  | _ => Raises
  end.

(** One element of a sequence given to [dict.update]: it must be a
    sequence of length two whose first element can be a key. *)
Definition update_pair (element : pyval) : outcome (string * pyval) :=
  match element with
  | PList [PStr key; value] => Returns (key, value)
  | PList [PList _; _] => Raises
  | PList [PDict _; _] => Raises
  | PList [_; _] => Unrepresentable
  | PList _ => Raises
  | PStr (String a (String b EmptyString)) =>
      Returns (String a EmptyString, PStr (String b EmptyString))
  | PStr _ => Raises
  | PDict [(key, _); (key', _)] => Returns (key, PStr key')
  | PDict _ => Raises
  | _ => Raises
  end.

Fixpoint update_pairs (target : pydict) (elements : list pyval) : outcome pydict :=
  match elements with
  | [] => Returns target
  | element :: rest =>
      bind (update_pair element)
           (fun kv => update_pairs (PyDict.set (fst kv) (snd kv) target) rest)
  end.

(** [target.update(source)] for a dictionary source. *)
Definition update_items (target items : pydict) : pydict :=
  fold_left (fun t kv => PyDict.set (fst kv) (snd kv) t) items target.

(** [target.update(source)]: a dictionary gives its items, a list its
    pairs, a string its characters (none is a pair). *)
Definition update (target : pydict) (source : pyval) : outcome pydict :=
  match source with
  | PDict items => Returns (update_items target items)
  | PList elements => update_pairs target elements
  | PStr EmptyString => Returns target
  | _ => Raises
  end.

(** [container[key].update(source)], written back under [key]: the
    container must be a dictionary holding a dictionary under [key]. *)
Definition update_at (key : string) (source : pyval) (container : pyval)
  : outcome pyval :=
  match container with
  | PDict items =>
      match PyDict.get key items with
      | Some (PDict target) =>
          bind (update target source)
               (fun target' => Returns (PDict (PyDict.set key (PDict target') items)))
      | _ => Raises
      end
  | _ => Raises
  end.

(** One iteration of [for path, methods in new_spec.get('paths', {}).items()],
    on [merged['paths']]. *)
Definition merge_path (paths : pyval) (item : string * pyval) : outcome pyval :=
  let (path, methods) := item in
  match paths with
  | PDict items =>
      let items :=
        if PyDict.mem path items then items
        else PyDict.set path (PDict []) items in
      update_at path methods (PDict items)
  | _ => Raises
  end.

Fixpoint merge_paths (paths : pyval) (items : pydict) : outcome pyval :=
  match items with
  | [] => Returns paths
  | item :: rest => bind (merge_path paths item) (fun paths' => merge_paths paths' rest)
  end.

(** [if key in new_spec.get('components', {}):
       merged['components'][key].update(new_spec['components'][key])],
    on [merged['components']]. *)
Definition merge_component (key : string) (new_spec : pydict) (components : pyval)
  : outcome pyval :=
  let new_components := get_or (PDict []) (PyDict.get "components" new_spec) in
  bind (py_in key new_components)
       (fun present =>
          if present then
            match new_components with
            | PDict items =>
                match PyDict.get key items with
                | Some source => update_at key source components
                | None => Raises
                end
            | _ => Raises
            end
          else Returns components).

(** [merge_openapi_specs(existing_spec, new_spec)], for two dictionaries:
    the dictionary it returns.  The dictionaries under [paths] and
    [components] of [existing_spec] are shared with the copy and changed
    with it. *)
Definition merge_openapi_specs (existing_spec new_spec : pydict) : outcome pydict :=
  let merged := existing_spec in
  let merged :=
    if PyDict.mem "paths" merged then merged
    else PyDict.set "paths" (PDict []) merged in
  match get_or (PDict []) (PyDict.get "paths" new_spec) with
  | PDict new_paths =>
      bind (merge_paths (get_or PNone (PyDict.get "paths" merged)) new_paths)
        (fun paths =>
           let merged := PyDict.set "paths" paths merged in
           let merged :=
             if PyDict.mem "components" merged then merged
             else PyDict.set "components"
                    (PDict [("schemas", PDict []); ("securitySchemes", PDict [])])
                    merged in
           let components := get_or PNone (PyDict.get "components" merged) in
           bind (merge_component "schemas" new_spec components)
             (fun components =>
                bind (merge_component "securitySchemes" new_spec components)
                  (fun components =>
                     Returns (PyDict.set "components" components merged))))
  | _ => Raises
  end.

(** The items of a document; none when it is not a dictionary. *)
Definition document_items (document : pyval) : pydict :=
  match document with
  | PDict items => items
  | _ => []
  end.

(** ** Notions used to state further properties *)

(** The least number of characters a pattern matches. *)
Fixpoint min_length (pattern : list Re.item) : nat :=
  match pattern with
  | [] => 0
  | Re.Chars _ lo _ :: rest => lo + min_length rest
  | Re.Lit _ :: rest => 1 + min_length rest
  end.



(** What [extract_path_parameters] takes from the segment that follows a
    [/]: the text between a leading [{] and the last [}] of the segment,
    or the text after a leading [:], when not empty. *)
Definition segment_parameter (segment : string) : list string :=
  match segment with
  | String "{" rest =>
      match before_last_brace rest with
      | Some (String _ _ as group) => [group]
      | _ => []
      end
  | String ":" (String _ _ as group) => [group]
  | _ => []
  end.

(** The document of [merge_openapi_specs] under [paths], when both
    arguments hold dictionaries of dictionaries there: the entries of
    [new_paths] laid over [paths], method by method. *)
Definition overlay_path (paths : pydict) (item : string * pyval) : pydict :=
  let (path, methods) := item in
  let paths :=
    if PyDict.mem path paths then paths else PyDict.set path (PDict []) paths in
  match PyDict.get path paths, methods with
  | Some (PDict target), PDict items =>
      PyDict.set path (PDict (update_items target items)) paths
  | _, _ => paths
  end.

Definition overlay (paths new_paths : pydict) : pydict :=
  fold_left overlay_path new_paths paths.

(** The methods stored under a template; none when it is absent. *)
Definition methods_at (paths : pydict) (template : string) : pydict :=
  match PyDict.get template paths with
  | Some (PDict methods) => methods
  | _ => []
  end.

(** [param[0] or param[1]]. *)
Definition pick_group (param : string * string) : string :=
  if PyStr.nonempty (fst param) then fst param else snd param.

(** The segments of a path after the first, each behind its [/]. *)
Fixpoint slashed (segments : list string) : string :=
  match segments with
  | [] => EmptyString
  | segment :: rest => String "/" (segment ++ slashed rest)
  end.

(** [document['paths'][template][method]] on the value under [paths]. *)
Definition operation_in (paths : pyval) (template method : string) : option pyval :=
  match paths with
  | PDict items =>
      match PyDict.get template items with
      | Some (PDict methods) => PyDict.get method methods
      | _ => None
      end
  | _ => None
  end.

(** * Properties *)

(** ** Dictionaries *)

Section DictFacts.
Context {V : Type}.
Implicit Types (d : list (string * V)) (k : string) (v : V).

Lemma get_set_same k v d : PyDict.get k (PyDict.set k v d) = Some v.
Proof.
  induction d as [|[k' v'] d IH]; simpl.
  - now rewrite String.eqb_refl.
  - destruct (String.eqb k k') eqn:E; simpl; rewrite E; auto.
Qed.

Lemma get_set_other k k' v d :
  k <> k' -> PyDict.get k (PyDict.set k' v d) = PyDict.get k d.
Proof.
  intros Hne. induction d as [|[k0 v0] d IH]; simpl.
  - apply String.eqb_neq in Hne. now rewrite Hne.
  - destruct (String.eqb k' k0) eqn:E; simpl.
    + apply String.eqb_eq in E. subst k0.
      apply String.eqb_neq in Hne. now rewrite Hne.
    + now rewrite IH.
Qed.

Lemma get_In k v d : PyDict.get k d = Some v -> In (k, v) d.
Proof.
  induction d as [|[k' v'] d IH]; simpl; [discriminate|].
  destruct (String.eqb k k') eqn:E.
  - apply String.eqb_eq in E. intros [= ->]. subst. now left.
  - intros H. right. auto.
Qed.

Lemma get_None_keys k d : PyDict.get k d = None -> ~ In k (PyDict.keys d).
Proof.
  induction d as [|[k' v'] d IH]; simpl; [tauto|].
  destruct (String.eqb k k') eqn:E; [discriminate|].
  apply String.eqb_neq in E. intros H [H'|H']; [congruence|]. now apply IH.
Qed.

Lemma keys_get k d : In k (PyDict.keys d) -> exists v, PyDict.get k d = Some v.
Proof.
  induction d as [|[k' v'] d IH]; simpl; [tauto|].
  destruct (String.eqb k k') eqn:E; [eauto|].
  apply String.eqb_neq in E. intros [H|H]; [congruence|auto].
Qed.

Lemma wf_In_get k v d : PyDict.wf d -> In (k, v) d -> PyDict.get k d = Some v.
Proof.
  unfold PyDict.wf. induction d as [|[k' v'] d IH]; simpl; [tauto|].
  intros Hnd Hin. inversion Hnd as [|? ? Hnot Hnd']; subst.
  destruct Hin as [[= -> ->]|Hin].
  - now rewrite String.eqb_refl.
  - destruct (String.eqb k k') eqn:E.
    + apply String.eqb_eq in E. subst. exfalso. apply Hnot.
      change (In (fst (k', v)) (map fst d)). now apply in_map.
    + auto.
Qed.

Lemma In_set k v k' v' d :
  In (k', v') (PyDict.set k v d) -> (k' = k /\ v' = v) \/ In (k', v') d.
Proof.
  induction d as [|[k0 v0] d IH]; simpl.
  - intros [[= <- <-]|[]]. now left.
  - destruct (String.eqb k k0) eqn:E; simpl.
    + apply String.eqb_eq in E. subst.
      intros [[= <- <-]|H]; [now left|right; now right].
    + intros [H|H]; [right; now left|].
      destruct (IH H); [now left|right; now right].
Qed.

Lemma keys_set_In k k' v d :
  In k' (PyDict.keys (PyDict.set k v d)) <-> k' = k \/ In k' (PyDict.keys d).
Proof.
  induction d as [|[k0 v0] d IH]; simpl.
  - intuition.
  - destruct (String.eqb k k0) eqn:E; simpl.
    + apply String.eqb_eq in E. subst. intuition.
    + rewrite IH. intuition.
Qed.

Lemma wf_set k v d : PyDict.wf d -> PyDict.wf (PyDict.set k v d).
Proof.
  unfold PyDict.wf. induction d as [|[k0 v0] d IH]; simpl.
  - intros _. constructor; [tauto|constructor].
  - intros Hnd. inversion Hnd as [|? ? Hnot Hnd']; subst.
    destruct (String.eqb k k0) eqn:E; simpl.
    + now constructor.
    + constructor; [|auto].
      intros Hin. apply keys_set_In in Hin. apply String.eqb_neq in E.
      destruct Hin; [congruence|contradiction].
Qed.

(** In a well-formed dictionary the entries under a key are the one that
    [get] returns. *)
Lemma wf_entries_of_key k v d :
  PyDict.wf d -> PyDict.get k d = Some v ->
  filter (fun kv => String.eqb (fst kv) k) d = [(k, v)].
Proof.
  unfold PyDict.wf. induction d as [|[k0 v0] d IH]; simpl; [discriminate|].
  intros Hnd Hget. inversion Hnd as [|? ? Hnot Hnd']; subst.
  rewrite (String.eqb_sym k0 k).
  destruct (String.eqb k k0) eqn:E.
  - apply String.eqb_eq in E. subst. injection Hget as ->. f_equal.
    clear IH Hnd Hnd'. induction d as [|[k1 v1] d IH]; simpl; [reflexivity|].
    simpl in Hnot. destruct (String.eqb k1 k0) eqn:E1.
    + apply String.eqb_eq in E1. subst. tauto.
    + apply IH. tauto.
  - auto.
Qed.
End DictFacts.

(** ** Schema inference *)

Lemma schema_of_items_required gen items properties required :
  snd (schema_of_items gen items (properties, required)) =
  (required ++ PyDict.keys (filter (fun kv => is_not_none (snd kv)) items))%list.
Proof.
  revert properties required.
  induction items as [|[key value] items IH]; intros; simpl.
  - now rewrite app_nil_r.
  - rewrite IH. destruct (is_not_none value); simpl.
    + now rewrite <- app_assoc.
    + reflexivity.
Qed.

Lemma required_names_object properties required :
  required_names
    (PDict [("type", PStr "object"); ("properties", properties);
            ("required", required_or_none required)]) = required.
Proof.
  unfold required_names. cbn [PyDict.get String.eqb Ascii.eqb Bool.eqb].
  destruct required as [|r required]; [reflexivity|].
  unfold required_or_none. generalize (r :: required). intros l.
  induction l as [|x l IH]; simpl; [reflexivity|now rewrite IH].
Qed.

Lemma is_not_none_true v : is_not_none v = true <-> v <> PNone.
Proof. destruct v; simpl; split; intros; congruence. Qed.

(** C4: for every JSON object, [generate_schema] gives an object schema
    whose ["required"] list names exactly the properties bound to a
    non-null value; on [{"a": 1, "b": null}] the properties are an integer
    schema for [a] and a null schema for [b], and ["required"] is [["a"]]. *)
Theorem C4_required_iff_non_null :
  (forall items : pydict,
      schema_get "type" (generate_schema (PDict items)) = Some (PStr "object")
      /\ forall name,
          In name (required_names (generate_schema (PDict items)))
          <-> exists value, In (name, value) items /\ value <> PNone)
  /\ generate_schema (PDict [("a", PInt 1); ("b", PNone)]) =
     PDict [("type", PStr "object");
            ("properties",
             PDict [("a", PDict [("type", PStr "integer")]);
                    ("b", PDict [("type", PStr "null")])]);
            ("required", PList [PStr "a"])].
Proof.
  split; [|reflexivity].
  intros items. split; [reflexivity|]. intros name.
  cbn [generate_schema isinstance].
  rewrite required_names_object.
  rewrite schema_of_items_required. cbn [app]. unfold PyDict.keys.
  rewrite in_map_iff. split.
  - intros [[k v] [Hk Hin]]. simpl in Hk. subst k.
    apply filter_In in Hin. destruct Hin as [Hin Hnn]. simpl in Hnn.
    exists v. split; [assumption|now apply is_not_none_true].
  - intros [v [Hin Hnn]]. exists (name, v). split; [reflexivity|].
    apply filter_In. split; [assumption|now apply is_not_none_true].
Qed.

(** C5: a non-empty array gives an array schema whose ["items"] is the
    schema of its first element, whatever follows it; the empty array gives
    an array schema with no ["items"] key; [[1, 2, 3]] has integer items. *)
Theorem C5_array_items_from_first_element :
  (forall first rest,
      generate_schema (PList (first :: rest)) =
      PDict [("type", PStr "array"); ("items", generate_schema first)])
  /\ (forall first rest rest',
         generate_schema (PList (first :: rest)) =
         generate_schema (PList (first :: rest')))
  /\ generate_schema (PList []) = PDict [("type", PStr "array")]
  /\ schema_get "items" (generate_schema (PList [])) = None
  /\ schema_get "items" (generate_schema (PList [PInt 1; PInt 2; PInt 3])) =
     Some (PDict [("type", PStr "integer")]).
Proof.
  repeat split; intros; reflexivity.
Qed.

(** C6: a boolean gets the boolean schema, never the integer or number
    one, although it passes the integer test that comes later in the
    chain. *)
Theorem C6_boolean_before_integer :
  forall b : bool,
    generate_schema (PBool b) = PDict [("type", PStr "boolean")]
    /\ isinstance (PBool b) Tint = true
    /\ schema_get "type" (generate_schema (PBool b)) <> Some (PStr "integer")
    /\ schema_get "type" (generate_schema (PBool b)) <> Some (PStr "number").
Proof.
  intros b. repeat split; try reflexivity; simpl; discriminate.
Qed.

(** ** Strings *)

Lemma split_not_nil sep s : PyStr.split sep s <> [].
Proof.
  destruct s as [|c s]; simpl; [discriminate|].
  destruct (Ascii.eqb c sep); [discriminate|].
  destruct (PyStr.split sep s); discriminate.
Qed.

Lemma split_pieces_free sep s piece :
  In piece (PyStr.split sep s) -> PyStr.has_char sep piece = false.
Proof.
  revert piece. induction s as [|c s IH]; simpl; intros piece.
  - intros [<-|[]]. reflexivity.
  - destruct (Ascii.eqb c sep) eqn:E.
    + intros [<-|H]; [reflexivity|auto].
    + destruct (PyStr.split sep s) as [|p ps]; simpl.
      * intros [<-|[]]. simpl. now rewrite E.
      * intros [<-|H]; [|apply IH; now right].
        simpl. rewrite E. apply IH. now left.
Qed.

Lemma split_free sep s :
  PyStr.has_char sep s = false -> PyStr.split sep s = [s].
Proof.
  induction s as [|c s IH]; simpl; [reflexivity|].
  destruct (Ascii.eqb c sep); simpl; [discriminate|].
  intros H. now rewrite IH.
Qed.

Lemma split_app_sep sep s rest :
  PyStr.has_char sep s = false ->
  PyStr.split sep (s ++ String sep rest) = s :: PyStr.split sep rest.
Proof.
  induction s as [|c s IH]; simpl.
  - now rewrite Ascii.eqb_refl.
  - destruct (Ascii.eqb c sep); simpl; [discriminate|].
    intros H. now rewrite IH.
Qed.

(** Splitting what [join] made of separator-free pieces gives them back. *)
Lemma split_join sep pieces :
  pieces <> [] ->
  (forall piece, In piece pieces -> PyStr.has_char sep piece = false) ->
  PyStr.split sep (PyStr.join (String sep EmptyString) pieces) = pieces.
Proof.
  unfold PyStr.join.
  induction pieces as [|p ps IH]; [congruence|]. intros _ Hfree.
  destruct ps as [|q ps].
  - simpl. apply split_free. apply Hfree. now left.
  - change (String.concat (String sep EmptyString) (p :: q :: ps))
      with (p ++ String sep (String.concat (String sep EmptyString) (q :: ps))).
    rewrite split_app_sep by (apply Hfree; now left).
    f_equal. apply IH; [discriminate|]. intros piece H. apply Hfree. now right.
Qed.

Lemma has_char_app c s1 s2 :
  PyStr.has_char c (s1 ++ s2) = PyStr.has_char c s1 || PyStr.has_char c s2.
Proof.
  induction s1 as [|a s1 IH]; simpl; [reflexivity|].
  now rewrite IH, orb_assoc.
Qed.

Lemma of_nat_no_slash n : PyStr.has_char "/" (PyStr.of_nat n) = false.
Proof.
  unfold PyStr.of_nat. generalize (Nat.to_uint n). intros d.
  induction d; simpl; auto.
Qed.

Lemma of_nat_inj n n' : PyStr.of_nat n = PyStr.of_nat n' -> n = n'.
Proof.
  unfold PyStr.of_nat. intros H.
  apply DecimalNat.Unsigned.to_uint_inj.
  assert (Some (Nat.to_uint n) = Some (Nat.to_uint n')) as [= E]; [|exact E].
  rewrite <- !NilEmpty.usu. now rewrite H.
Qed.

(** ** Path standardisation *)

Lemma classify_kind segment kind : classify segment = Some kind -> In kind kinds.
Proof.
  unfold classify. destruct (PyStr.nonempty segment); [|discriminate].
  cbn [first_match patterns].
  repeat match goal with
         | |- context [if ?b then _ else _] => destruct b
         end; intros [= <-]; simpl; auto.
Qed.

Ltac each_kind H :=
  cbn [kinds patterns map snd In] in H;
  repeat (destruct H as [H|H]; [subst|]); [..|contradiction].

(** Distinct positions, or distinct kinds, give distinct names. *)
Lemma param_name_inj k k' n n' :
  In k kinds -> In k' kinds -> param_name k n = param_name k' n' ->
  k = k' /\ n = n'.
Proof.
  intros Hk Hk'. each_kind Hk; each_kind Hk';
    unfold param_name; destruct n, n'; cbn [Nat.ltb Nat.leb append];
    intros H; try discriminate H; try (split; reflexivity);
    injection H as H; apply of_nat_inj in H; now split.
Qed.

Lemma placeholder_unclassified name : classify (placeholder name) = None.
Proof. reflexivity. Qed.

Lemma rewritten_unclassified i segment : classify (rewritten i segment) = None.
Proof.
  unfold rewritten. destruct (classify segment) eqn:E; [|exact E].
  apply placeholder_unclassified.
Qed.

Lemma rewritten_no_slash i segment :
  PyStr.has_char "/" segment = false ->
  PyStr.has_char "/" (rewritten i segment) = false.
Proof.
  unfold rewritten. destruct (classify segment) as [k|] eqn:E; [|auto].
  intros _. apply classify_kind in E.
  each_kind E; unfold placeholder, param_name; destruct i;
    cbn [Nat.ltb Nat.leb append PyStr.has_char Ascii.eqb Bool.eqb orb];
    try reflexivity; rewrite has_char_app, of_nat_no_slash; reflexivity.
Qed.

Lemma standardize_segments_fst i segments m :
  fst (standardize_segments i segments m) = rewrite_from i segments.
Proof.
  revert i m. induction segments as [|s segments IH]; intros i m; simpl.
  - reflexivity.
  - unfold rewritten. destruct (classify s) as [k|].
    + specialize (IH (S i) (PyDict.set s (param_name k i) m)).
      destruct (standardize_segments (S i) segments _). simpl in *. now f_equal.
    + specialize (IH (S i) m).
      destruct (standardize_segments (S i) segments _). simpl in *. now f_equal.
Qed.

Lemma standardize_segments_get i segments m literal :
  PyDict.get literal (snd (standardize_segments i segments m)) =
  last_name i segments literal (PyDict.get literal m).
Proof.
  revert i m. induction segments as [|s segments IH]; intros i m; simpl.
  - reflexivity.
  - destruct (classify s) as [k|].
    + specialize (IH (S i) (PyDict.set s (param_name k i) m)).
      destruct (standardize_segments (S i) segments _). simpl in *.
      rewrite IH. f_equal.
      destruct (String.eqb literal s) eqn:E.
      * apply String.eqb_eq in E. subst. apply get_set_same.
      * apply String.eqb_neq in E. now apply get_set_other.
    + specialize (IH (S i) m).
      destruct (standardize_segments (S i) segments _). simpl in *. exact IH.
Qed.

Lemma standardize_segments_wf i segments m :
  PyDict.wf m -> PyDict.wf (snd (standardize_segments i segments m)).
Proof.
  revert i m. induction segments as [|s segments IH]; intros i m Hwf; simpl.
  - exact Hwf.
  - destruct (classify s) as [k|].
    + specialize (IH (S i) (PyDict.set s (param_name k i) m) (wf_set _ _ _ Hwf)).
      destruct (standardize_segments (S i) segments _). exact IH.
    + specialize (IH (S i) m Hwf).
      destruct (standardize_segments (S i) segments _). exact IH.
Qed.

(** Segments that match no pattern go through the loop unchanged. *)
Lemma standardize_segments_fixed i segments m :
  (forall s, In s segments -> classify s = None) ->
  standardize_segments i segments m = (segments, m).
Proof.
  revert i m. induction segments as [|s segments IH]; intros i m H; simpl.
  - reflexivity.
  - rewrite (H s) by now left. rewrite IH; [reflexivity|].
    intros s' Hs'. apply H. now right.
Qed.

Lemma nth_error_rewrite_from i segments n :
  nth_error (rewrite_from i segments) n =
  option_map (rewritten (i + n)) (nth_error segments n).
Proof.
  revert i n. induction segments as [|s segments IH]; intros i n; simpl.
  - now destruct n.
  - destruct n as [|n]; simpl.
    + now rewrite Nat.add_0_r.
    + rewrite IH. now rewrite Nat.add_succ_r.
Qed.

Lemma In_rewrite_from i segments s :
  In s (rewrite_from i segments) ->
  exists n segment, In segment segments /\ s = rewritten n segment.
Proof.
  revert i. induction segments as [|s0 segments IH]; intros i; simpl; [tauto|].
  intros [<-|H].
  - exists i, s0. split; [now left|reflexivity].
  - destruct (IH _ H) as (n & seg & Hin & ->). exists n, seg.
    split; [now right|reflexivity].
Qed.

(** The last assignment to a literal is the one at its last occurrence. *)
Lemma last_name_last_occurrence i segments literal kind n before :
  nth_error segments n = Some literal ->
  classify literal = Some kind ->
  (forall n', n < n' -> nth_error segments n' <> Some literal) ->
  last_name i segments literal before = Some (param_name kind (i + n)).
Proof.
  revert i n before.
  induction segments as [|s segments IH]; intros i n before Hn Hk Hlast.
  - now destruct n.
  - destruct n as [|n]; simpl in *.
    + injection Hn as ->. rewrite Hk, String.eqb_refl, Nat.add_0_r.
      clear IH. generalize (Some (param_name kind i)) as b.
      assert (Hno : forall n', nth_error segments n' <> Some literal).
      { intros n'. apply (Hlast (S n')). lia. }
      clear Hlast. generalize (S i) as i'.
      induction segments as [|s segments IH]; intros i' b; simpl; [reflexivity|].
      assert (Hs : s <> literal).
      { intros ->. now apply (Hno 0). }
      apply String.eqb_neq in Hs. rewrite String.eqb_sym in Hs. rewrite Hs.
      destruct (classify s); apply IH; intros n'; apply (Hno (S n')).
    + rewrite Nat.add_succ_r. apply (IH (S i) n); auto.
      intros n' Hlt. apply (Hlast (S n')). lia.
Qed.

(** Where a name in the final mapping comes from. *)
Lemma last_name_origin i segments literal before name :
  last_name i segments literal before = Some name ->
  (before = Some name
   /\ forall kind, classify literal = Some kind ->
        forall n, nth_error segments n <> Some literal)
  \/ exists n kind,
       nth_error segments n = Some literal
       /\ classify literal = Some kind
       /\ name = param_name kind (i + n)
       /\ forall n', n < n' -> nth_error segments n' <> Some literal.
Proof.
  revert i before.
  induction segments as [|s segments IH]; intros i before H; simpl in H.
  - left. split; [exact H|]. intros kind _ n. now destruct n.
  - apply IH in H. destruct H as [[Hb Hno]|(n & kind & Hn & Hk & Hname & Hlast)].
    + destruct (classify s) as [k|] eqn:Ek.
      * destruct (String.eqb literal s) eqn:E.
        -- apply String.eqb_eq in E. subst s. right. exists 0, k.
           injection Hb as <-. rewrite Nat.add_0_r.
           repeat split; auto.
           intros n' Hlt. destruct n' as [|n']; [lia|]. simpl. now apply (Hno k).
        -- left. split; [exact Hb|]. intros kind Hkind n.
           destruct n as [|n]; simpl; [|now apply (Hno kind)].
           apply String.eqb_neq in E. congruence.
      * left. split; [exact Hb|]. intros kind Hkind n.
        destruct n as [|n]; simpl; [|now apply (Hno kind)].
        intros [= ->]. congruence.
    + right. exists (S n), kind. rewrite Nat.add_succ_r. repeat split; auto.
      intros n' Hlt. destruct n' as [|n']; [lia|]. simpl. apply Hlast. lia.
Qed.

Lemma standardize_path_template path :
  fst (standardize_path path) =
  PyStr.join "/" (rewrite_from 0 (PyStr.split "/" path)).
Proof.
  unfold standardize_path.
  rewrite <- (standardize_segments_fst 0 (PyStr.split "/" path) []).
  now destruct (standardize_segments 0 (PyStr.split "/" path) []).
Qed.

Lemma standardize_path_mapping path :
  snd (standardize_path path) =
  snd (standardize_segments 0 (PyStr.split "/" path) []).
Proof.
  unfold standardize_path.
  now destruct (standardize_segments 0 (PyStr.split "/" path) []).
Qed.

(** The segments of the template are the rewritten segments of the path. *)
Lemma template_segments path :
  PyStr.split "/" (fst (standardize_path path)) =
  rewrite_from 0 (PyStr.split "/" path).
Proof.
  rewrite standardize_path_template. apply split_join.
  - pose proof (split_not_nil "/" path) as H.
    destruct (PyStr.split "/" path); [congruence|discriminate].
  - intros piece Hin. apply In_rewrite_from in Hin.
    destruct Hin as (n & seg & Hin & ->).
    apply rewritten_no_slash. eapply split_pieces_free. exact Hin.
Qed.

Lemma mapping_wf path : PyDict.wf (snd (standardize_path path)).
Proof.
  rewrite standardize_path_mapping. apply standardize_segments_wf. constructor.
Qed.

(** A parameterized segment at a position after the first one of the split
    carries its index. *)
Lemma segment_name_indexed path i segment kind :
  nth_error (PyStr.split "/" path) i = Some segment ->
  classify segment = Some kind ->
  nth_error (PyStr.split "/" (fst (standardize_path path))) i =
  Some (placeholder (param_name kind i)).
Proof.
  intros Hn Hk. rewrite template_segments, nth_error_rewrite_from, Hn. simpl.
  unfold rewritten. now rewrite Hk.
Qed.

Lemma mapping_last_occurrence path i segment kind :
  nth_error (PyStr.split "/" path) i = Some segment ->
  classify segment = Some kind ->
  (forall n, i < n -> nth_error (PyStr.split "/" path) n <> Some segment) ->
  PyDict.get segment (snd (standardize_path path)) = Some (param_name kind i).
Proof.
  intros Hn Hk Hlast. rewrite standardize_path_mapping, standardize_segments_get.
  simpl PyDict.get. now apply (last_name_last_occurrence 0 _ _ _ i).
Qed.

(** C1 (amended): on [/users/1000140/orders/3f29c4a1b2e3445e9aa1d2c3b4e5f6a7]
    the hash segment, at position 4 of the split, becomes [{hash_4}] and the
    mapping sends the hash literal to [hash_4]; in general, for every path,
    a parameterized segment that comes after another parameterized segment
    is named [{kind}_{i}], with [i] its 0-based position in the split on
    [/] (the empty piece before a leading slash counted), and the mapping
    sends its literal to that name when the literal does not occur again
    later. *)
Theorem C1_later_segments_named_by_index :
  (nth_error (PyStr.split "/" (fst (standardize_path example_path))) 4 =
     Some "{hash_4}"
   /\ PyDict.get "3f29c4a1b2e3445e9aa1d2c3b4e5f6a7"
        (snd (standardize_path example_path)) = Some "hash_4")
  /\ forall path j earlier kind_j i segment kind,
      nth_error (PyStr.split "/" path) j = Some earlier ->
      classify earlier = Some kind_j ->
      j < i ->
      nth_error (PyStr.split "/" path) i = Some segment ->
      classify segment = Some kind ->
      nth_error (PyStr.split "/" (fst (standardize_path path))) i =
        Some ("{" ++ (kind ++ "_" ++ PyStr.of_nat i) ++ "}")
      /\ ((forall n, i < n -> nth_error (PyStr.split "/" path) n <> Some segment) ->
          PyDict.get segment (snd (standardize_path path)) =
            Some (kind ++ "_" ++ PyStr.of_nat i)).
Proof.
  split; [split; reflexivity|].
  intros path j earlier kind_j i segment kind _ _ Hlt Hn Hk.
  assert (Hname : param_name kind i = kind ++ "_" ++ PyStr.of_nat i).
  { unfold param_name. destruct i; [lia|reflexivity]. }
  rewrite <- Hname. split.
  - now apply (segment_name_indexed path i segment).
  - intros Hlast. now apply mapping_last_occurrence.
Qed.

Lemma C1_later_segments_named_by_index_witness :
  nth_error (PyStr.split "/" example_path) 2 = Some "1000140"
  /\ classify "1000140" = Some "id"
  /\ 2 < 4
  /\ nth_error (PyStr.split "/" example_path) 4 =
       Some "3f29c4a1b2e3445e9aa1d2c3b4e5f6a7"
  /\ classify "3f29c4a1b2e3445e9aa1d2c3b4e5f6a7" = Some "hash"
  /\ nth_error (PyStr.split "/" (fst (standardize_path example_path))) 4 =
       Some ("{" ++ ("hash" ++ "_" ++ PyStr.of_nat 4) ++ "}")
  /\ PyDict.get "3f29c4a1b2e3445e9aa1d2c3b4e5f6a7"
       (snd (standardize_path example_path)) =
     Some ("hash" ++ "_" ++ PyStr.of_nat 4).
Proof.
  repeat (split; [first [reflexivity | lia]|]).
  apply (proj2 C1_later_segments_named_by_index
           example_path 2 "1000140" "id" 4
           "3f29c4a1b2e3445e9aa1d2c3b4e5f6a7" "hash");
    try reflexivity; try lia.
  intros n Hn. do 5 (destruct n as [|n]; [lia|]). simpl. now destruct n.
Defined.

(** C1 as stated fails on its own example: the template is
    [/users/{id_2}/orders/{hash_4}], not [/users/{id}/orders/{hash_3}]. *)
Lemma C1_counterexample :
  standardize_path example_path =
    ("/users/{id_2}/orders/{hash_4}",
     [("1000140", "id_2"); ("3f29c4a1b2e3445e9aa1d2c3b4e5f6a7", "hash_4")])
  /\ standardize_path example_path <>
    ("/users/{id}/orders/{hash_3}",
     [("1000140", "id"); ("3f29c4a1b2e3445e9aa1d2c3b4e5f6a7", "hash_3")]).
Proof.
  split; [reflexivity|]. vm_compute. discriminate.
Qed.

(** C7: standardising a template that [standardize_path] produced returns
    it unchanged, with an empty mapping: no placeholder is rewritten. *)
Theorem C7_standardize_path_idempotent :
  forall path,
    standardize_path (fst (standardize_path path)) =
    (fst (standardize_path path), []).
Proof.
  intros path. unfold standardize_path at 1.
  rewrite template_segments.
  rewrite standardize_segments_fixed.
  - now rewrite standardize_path_template.
  - intros s Hin. apply In_rewrite_from in Hin.
    destruct Hin as (n & seg & _ & ->). apply rewritten_unclassified.
Qed.

(** The path-level half of C10. *)
Lemma repeated_literal_mapping path literal kind i j :
  nth_error (PyStr.split "/" path) i = Some literal ->
  nth_error (PyStr.split "/" path) j = Some literal ->
  i < j ->
  (forall n, j < n -> nth_error (PyStr.split "/" path) n <> Some literal) ->
  classify literal = Some kind ->
  param_name kind i <> param_name kind j
  /\ filter (fun kv => String.eqb (fst kv) literal) (snd (standardize_path path)) =
       [(literal, param_name kind j)]
  /\ ~ In (param_name kind i) (PyDict.values (snd (standardize_path path))).
Proof.
  intros Hi Hj Hlt Hlast Hk.
  pose proof (classify_kind _ _ Hk) as Hkind.
  split; [|split].
  - intros E. apply param_name_inj in E; auto. lia.
  - apply wf_entries_of_key; [apply mapping_wf|].
    now apply mapping_last_occurrence.
  - unfold PyDict.values. rewrite in_map_iff. intros [[key name] [Hname Hin]].
    simpl in Hname. subst name.
    apply wf_In_get in Hin; [|apply mapping_wf].
    rewrite standardize_path_mapping, standardize_segments_get in Hin.
    simpl PyDict.get in Hin. apply last_name_origin in Hin.
    destruct Hin as [[Hnone _]|(n & k' & Hn & Hk' & Hname & Hlast')];
      [discriminate|].
    simpl in Hname. apply param_name_inj in Hname; auto.
    + destruct Hname as [_ <-]. rewrite Hi in Hn. injection Hn as <-.
      now apply (Hlast' j).
    + now apply (classify_kind key).
Qed.

(** ** Endpoint description and document assembly *)

Lemma append_empty_r s : s ++ "" = s.
Proof. induction s as [|c s IH]; simpl; [reflexivity|now rewrite IH]. Qed.

Lemma nonempty_append s t :
  (if PyStr.nonempty t then s ++ t else s) = s ++ t.
Proof. destruct t; simpl; [now rewrite append_empty_r|reflexivity]. Qed.

Section Assembly.

Variable json_loads : string -> option pyval.
Variable urlparse : string -> ParseResult.
Variable parse_qs : string -> list (string * list string).

(** The converter over these library functions. *)
#[local] Abbreviation operation_of := (entry_operation json_loads urlparse parse_qs).
#[local] Abbreviation step := (process_entry json_loads urlparse parse_qs).
#[local] Abbreviation paths_of := (assemble_paths json_loads urlparse parse_qs).
#[local] Abbreviation document_of :=
  (convert_har_to_openapi json_loads urlparse parse_qs).

(** The description is the verb and resource followed by the two clauses
    and the status annotation. *)
Lemma description_shape path method request response :
  generate_endpoint_description json_loads path method request response =
  (((method_desc method ++ " " ++ resource_of path) ++ field_desc json_loads request)
     ++ response_desc json_loads (resource_of path) response)
    ++ status_note (get_or 200%Z (Har.status response)).
Proof.
  unfold generate_endpoint_description.
  cbv zeta. now rewrite !nonempty_append.
Qed.

(** C3: when the body text is not parseable JSON, schema extraction
    returns the empty schema [{}], the request clause and the response
    clause of the description are empty, and the description is the verb,
    the resource and the status annotation. *)
Theorem C3_unparseable_body_ignored :
  forall s : string,
    json_loads s = None ->
    extract_schema_from_json json_loads (PStr s) = PDict []
    /\ (forall request,
           body_text (get_or [] (Har.postData request)) = PStr s ->
           field_desc json_loads request = "")
    /\ (forall resource response,
           body_text (get_or [] (Har.content response)) = PStr s ->
           response_desc json_loads resource response = "")
    /\ (forall path method request response,
           body_text (get_or [] (Har.postData request)) = PStr s ->
           body_text (get_or [] (Har.content response)) = PStr s ->
           generate_endpoint_description json_loads path method request response =
           (method_desc method ++ " " ++ resource_of path)
             ++ status_note (get_or 200%Z (Har.status response))).
Proof.
  intros s Hs.
  assert (Hf : forall request,
             body_text (get_or [] (Har.postData request)) = PStr s ->
             field_desc json_loads request = "").
  { intros request Hb. unfold field_desc. rewrite Hb. simpl.
    now rewrite Hs. }
  assert (Hr : forall resource response,
             body_text (get_or [] (Har.content response)) = PStr s ->
             response_desc json_loads resource response = "").
  { intros resource response Hb. unfold response_desc. rewrite Hb.
    simpl. now rewrite Hs. }
  repeat split; auto.
  - unfold extract_schema_from_json. simpl. now rewrite Hs.
  - intros path method request response Hq Hp.
    rewrite description_shape, (Hf _ Hq), (Hr _ _ Hp).
    now rewrite !append_empty_r.
Qed.

(** A body that is not a string is no better than an unparseable one. *)
Lemma extract_schema_non_string v :
  (forall s, v <> PStr s) -> extract_schema_from_json json_loads v = PDict [].
Proof.
  intros H. destruct v; try reflexivity. now destruct (H s).
Qed.

(** C9 (amended): the clause [ Returns a list of {resource}s] is appended
    exactly when the response body parses to a JSON array, empty or not;
    when it parses to an object with keys, the clause
    [ Returns data with fields: ] lists the keys joined by [, ] in their
    order; in every other case no clause is appended. *)
Theorem C9_returns_clause :
  forall path method request response,
    let resource := resource_of path in
    let before :=
      (method_desc method ++ " " ++ resource) ++ field_desc json_loads request in
    let after := status_note (get_or 200%Z (Har.status response)) in
    let description :=
      generate_endpoint_description json_loads path method request response in
    match loads json_loads (body_text (get_or [] (Har.content response))) with
    | Some (PList _) =>
        description = (before ++ " Returns a list of " ++ resource ++ "s") ++ after
    | Some (PDict ((_ :: _) as fields)) =>
        description =
        (before ++ " Returns data with fields: "
                ++ PyStr.join ", " (PyDict.keys fields)) ++ after
    | _ => description = before ++ after
    end
    /\ (response_desc json_loads resource response =
          " Returns a list of " ++ resource ++ "s"
        <-> exists items,
            loads json_loads (body_text (get_or [] (Har.content response))) =
            Some (PList items)).
Proof.
  intros path method request response resource before after description.
  subst description before after. rewrite description_shape. fold resource.
  unfold response_desc.
  destruct (loads json_loads (body_text (get_or [] (Har.content response))))
    as [[| | | | |items|[|kv fields]]|]; split.
  all: try (split; [discriminate|intros [items' [=]]]).
  all: try (rewrite append_empty_r; reflexivity).
  all: try reflexivity.
  split; [intros _; now exists items|reflexivity].
Qed.

(** *** Parameters of an operation *)

Lemma operation_parameters_append ps old operation :
  PyDict.get "parameters" operation = Some (PList old) ->
  operation_parameters (append_parameters ps operation) = (old ++ ps)%list.
Proof.
  intros H. unfold append_parameters, operation_parameters.
  now rewrite H, get_set_same.
Qed.

Lemma query_parameters_not_path names :
  filter is_path_parameter (map query_parameter names) = [].
Proof. induction names as [|n names IH]; simpl; auto. Qed.

Lemma path_parameters_are_path m :
  filter is_path_parameter (map path_parameter m) = map path_parameter m.
Proof.
  induction m as [|[original_value name] m IH]; simpl; [reflexivity|].
  now rewrite IH.
Qed.

(** The path parameters of an operation are those of the mapping, in its
    order, one per entry. *)
Lemma make_operation_path_parameters
      path param_mapping method parsed_url request response :
  filter is_path_parameter
    (operation_parameters
       (make_operation json_loads parse_qs path param_mapping method parsed_url
          request response)) =
  map path_parameter param_mapping.
Proof.
  unfold make_operation. cbv zeta.
  match goal with
  | |- context [add_request_body json_loads request ?base] =>
      set (op2 := add_request_body json_loads request base)
  end.
  assert (H2 : PyDict.get "parameters" op2 = None).
  { subst op2. unfold add_request_body.
    destruct (Har.postData request) as [[|kv pd]|]; reflexivity. }
  unfold add_path_parameters, add_query_parameters.
  destruct (PyDict.nonempty (parse_qs (query parsed_url))).
  - destruct param_mapping as [|kv m]; cbn [PyDict.nonempty].
    + unfold operation_parameters. rewrite get_set_same.
      apply query_parameters_not_path.
    + unfold PyDict.mem. rewrite get_set_same.
      rewrite (operation_parameters_append _ _ _ (get_set_same _ _ _)).
      rewrite filter_app, query_parameters_not_path, path_parameters_are_path.
      reflexivity.
  - destruct param_mapping as [|kv m]; cbn [PyDict.nonempty].
    + unfold operation_parameters. now rewrite H2.
    + unfold PyDict.mem. rewrite H2.
      rewrite (operation_parameters_append _ _ _ (get_set_same _ _ _)).
      cbn [app]. apply path_parameters_are_path.
Qed.

(** C10: when a literal that matches a pattern occurs at positions [i] and
    [j] of the split path, [j] being its last occurrence, the template has
    the placeholder indexed [i] at [i] and the one indexed [j] at [j], the
    two names differ, the mapping has exactly one entry for the literal,
    bound to the name of position [j], the name of position [i] is bound to
    nothing in the mapping, and the operation built from the template and
    the mapping has one path parameter per mapping entry and none named
    after position [i]. *)
Theorem C10_repeated_literal_keeps_last_name :
  forall path literal kind i j,
    nth_error (PyStr.split "/" path) i = Some literal ->
    nth_error (PyStr.split "/" path) j = Some literal ->
    i < j ->
    (forall n, j < n -> nth_error (PyStr.split "/" path) n <> Some literal) ->
    classify literal = Some kind ->
    let template := fst (standardize_path path) in
    let mapping := snd (standardize_path path) in
    nth_error (PyStr.split "/" template) i = Some (placeholder (param_name kind i))
    /\ nth_error (PyStr.split "/" template) j = Some (placeholder (param_name kind j))
    /\ param_name kind i <> param_name kind j
    /\ filter (fun kv => String.eqb (fst kv) literal) mapping =
         [(literal, param_name kind j)]
    /\ ~ In (param_name kind i) (PyDict.values mapping)
    /\ forall method parsed_url request response,
        let operation :=
          make_operation json_loads parse_qs template mapping method parsed_url
            request response in
        filter is_path_parameter (operation_parameters operation) =
          map path_parameter mapping
        /\ forall p, In p (operation_parameters operation) ->
             is_path_parameter p = true ->
             schema_get "name" p <> Some (PStr (param_name kind i)).
Proof.
  intros path literal kind i j Hi Hj Hlt Hlast Hk template mapping.
  destruct (repeated_literal_mapping path literal kind i j Hi Hj Hlt Hlast Hk)
    as (Hne & Hone & Habsent).
  repeat split; auto.
  - now apply (segment_name_indexed path i literal).
  - now apply (segment_name_indexed path j literal).
  - apply make_operation_path_parameters.
  - intros p Hin Hpath Hname.
    assert (Hp : In p (map path_parameter mapping)).
    { rewrite <- (make_operation_path_parameters
                    template mapping method parsed_url request response).
      apply filter_In. now split. }
    apply in_map_iff in Hp. destruct Hp as [[original_value name] [<- Hm]].
    simpl in Hname. injection Hname as ->.
    apply Habsent. unfold PyDict.values.
    change (param_name kind i) with (snd (original_value, param_name kind i)).
    now apply in_map.
Qed.

(** *** The paths of the document *)

Lemma paths_wf_empty : paths_wf [].
Proof. split; [constructor|]. intros ? ? []. Qed.

Lemma paths_wf_get paths template v :
  paths_wf paths -> PyDict.get template paths = Some v ->
  exists methods, v = PDict methods /\ PyDict.wf methods.
Proof. intros [_ H] Hget. apply (H template). now apply get_In. Qed.

Lemma paths_wf_set paths template methods :
  paths_wf paths -> PyDict.wf methods ->
  paths_wf (PyDict.set template (PDict methods) paths).
Proof.
  intros [Hwf Hvals] Hm. split; [now apply wf_set|].
  intros t v Hin. apply In_set in Hin. destruct Hin as [[_ ->]|Hin]; eauto.
Qed.

(** What [store_operation] leaves under the template. *)
Lemma store_operation_get path method operation paths :
  paths_wf paths ->
  exists methods,
    PyDict.wf methods
    /\ store_operation path method operation paths =
       PyDict.set path (PDict (PyDict.set method (PDict operation) methods))
         (if PyDict.mem path paths then paths
          else PyDict.set path (PDict []) paths).
Proof.
  intros Hwf. unfold store_operation, PyDict.mem.
  destruct (PyDict.get path paths) as [v|] eqn:E.
  - destruct (paths_wf_get _ _ _ Hwf E) as (methods & -> & Hm).
    exists methods. now rewrite E.
  - exists []. rewrite get_set_same. split; [constructor|reflexivity].
Qed.

Lemma store_operation_wf path method operation paths :
  paths_wf paths -> paths_wf (store_operation path method operation paths).
Proof.
  intros Hwf.
  destruct (store_operation_get path method operation paths Hwf)
    as (methods & Hm & ->).
  apply paths_wf_set; [|now apply wf_set].
  destruct (PyDict.mem path paths); [exact Hwf|].
  apply paths_wf_set; [exact Hwf|constructor].
Qed.

Lemma store_operation_lookup path method operation paths :
  paths_wf paths ->
  exists methods,
    PyDict.get path (store_operation path method operation paths) =
      Some (PDict methods)
    /\ PyDict.get method methods = Some (PDict operation).
Proof.
  intros Hwf.
  destruct (store_operation_get path method operation paths Hwf)
    as (methods & _ & ->).
  eexists. split; apply get_set_same.
Qed.

Lemma process_entry_wf path_prefix paths entry :
  paths_wf paths -> paths_wf (step path_prefix paths entry).
Proof.
  intros Hwf. unfold process_entry.
  destruct (skipped urlparse path_prefix entry); [exact Hwf|].
  now apply store_operation_wf.
Qed.

Lemma fold_process_wf path_prefix entries paths :
  paths_wf paths -> paths_wf (fold_left (step path_prefix) entries paths).
Proof.
  revert paths. induction entries as [|e entries IH]; intros paths Hwf; simpl.
  - exact Hwf.
  - apply IH. now apply process_entry_wf.
Qed.

Lemma assemble_paths_wf entries path_prefix :
  paths_wf (paths_of entries path_prefix).
Proof. apply fold_process_wf, paths_wf_empty. Qed.

Lemma assemble_paths_snoc entries entry path_prefix :
  paths_of (entries ++ [entry]) path_prefix =
  step path_prefix (paths_of entries path_prefix) entry.
Proof. unfold assemble_paths. now rewrite fold_left_app. Qed.

(** After an entry that is not skipped, its operation is the one stored
    under its key, whatever came before. *)
Lemma last_entry_operation entries entry path_prefix :
  skipped urlparse path_prefix entry = false ->
  operation_at (document_of (entries ++ [entry]) path_prefix)
    (entry_path urlparse entry) (entry_method entry) =
  Some (PDict (operation_of entry)).
Proof.
  intros Hs. unfold operation_at, convert_har_to_openapi.
  cbn [schema_get PyDict.get String.eqb Ascii.eqb Bool.eqb].
  rewrite assemble_paths_snoc. unfold process_entry. rewrite Hs.
  destruct (store_operation_lookup (entry_path urlparse entry) (entry_method entry)
              (operation_of entry) (paths_of entries path_prefix)
              (assemble_paths_wf _ _)) as (methods & -> & Hm).
  exact Hm.
Qed.

(** C2: two entries that are both assembled and share template and
    method leave exactly one operation under that key, the one derived
    from the second entry: the paths, and the whole document, are those of
    the second entry alone; the same operation is found under the key
    whatever precedes the two entries in the log; and in every assembled
    document no template and no method of a template is listed twice. *)
Theorem C2_last_entry_wins :
  forall path_prefix e1 e2,
    skipped urlparse path_prefix e1 = false ->
    skipped urlparse path_prefix e2 = false ->
    entry_path urlparse e1 = entry_path urlparse e2 ->
    entry_method e1 = entry_method e2 ->
    paths_of [e1; e2] path_prefix =
      [(entry_path urlparse e2, PDict [(entry_method e2, PDict (operation_of e2))])]
    /\ document_of [e1; e2] path_prefix =
       document_of [e2] path_prefix
    /\ (forall before,
           operation_at (document_of (before ++ [e1; e2]) path_prefix)
             (entry_path urlparse e2) (entry_method e2) =
           Some (PDict (operation_of e2)))
    /\ forall entries, paths_wf (paths_of entries path_prefix).
Proof.
  intros path_prefix e1 e2 H1 H2 Hp Hm.
  assert (Hpair : paths_of [e1; e2] path_prefix =
                  [(entry_path urlparse e2,
                    PDict [(entry_method e2, PDict (operation_of e2))])]).
  { unfold assemble_paths, process_entry. simpl. rewrite H1, H2, Hp, Hm.
    unfold store_operation, PyDict.mem. simpl.
    repeat (rewrite String.eqb_refl; simpl). reflexivity. }
  assert (Hone : paths_of [e2] path_prefix =
                 [(entry_path urlparse e2,
                   PDict [(entry_method e2, PDict (operation_of e2))])]).
  { unfold assemble_paths, process_entry. simpl. rewrite H2.
    unfold store_operation, PyDict.mem. simpl.
    repeat (rewrite String.eqb_refl; simpl). reflexivity. }
  repeat split.
  - exact Hpair.
  - unfold convert_har_to_openapi. now rewrite Hpair, Hone.
  - intros before.
    replace (before ++ [e1; e2])%list with ((before ++ [e1]) ++ [e2])%list
      by now rewrite <- app_assoc.
    now apply last_entry_operation.
  - apply assemble_paths_wf.
  - apply (assemble_paths_wf entries path_prefix).
Qed.

(** *** Skipped entries *)

Lemma skipped_entry_ignored path_prefix paths entry :
  skipped urlparse path_prefix entry = true -> step path_prefix paths entry = paths.
Proof. intros H. unfold process_entry. now rewrite H. Qed.

Lemma other_scheme_skipped path_prefix entry :
  PyStr.startswith "http"
    (scheme (urlparse (get_or "" (Har.url (Har.request_of entry))))) = false ->
  skipped urlparse path_prefix entry = true.
Proof. intros H. unfold skipped. now rewrite H. Qed.

Lemma prefix_mismatch_skipped p entry :
  PyStr.nonempty p = true ->
  PyStr.startswith p
    (path (urlparse (get_or "" (Har.url (Har.request_of entry))))) = false ->
  skipped urlparse (Some p) entry = true.
Proof.
  intros Hp H. unfold skipped. simpl. rewrite Hp, H.
  now destruct (PyStr.startswith "http" _).
Qed.

(** A skipped entry leaves no trace in the paths of the document. *)
Lemma skipped_entry_contributes_nothing path_prefix before entry after :
  skipped urlparse path_prefix entry = true ->
  paths_of (before ++ entry :: after) path_prefix =
  paths_of (before ++ after) path_prefix.
Proof.
  intros H. unfold assemble_paths. rewrite !fold_left_app. simpl.
  now rewrite skipped_entry_ignored.
Qed.

End Assembly.

(** * The converter on concrete logs *)

Lemma C2_last_entry_wins_witness :
  skipped Lib.urlparse None users_1 = false
  /\ skipped Lib.urlparse None users_2 = false
  /\ entry_path Lib.urlparse users_1 = entry_path Lib.urlparse users_2
  /\ entry_method users_1 = entry_method users_2
  /\ assemble_paths Lib.json_loads Lib.urlparse Lib.parse_qs [users_1; users_2] None =
     [(entry_path Lib.urlparse users_2,
       PDict [(entry_method users_2,
               PDict (entry_operation Lib.json_loads Lib.urlparse Lib.parse_qs
                        users_2))])].
Proof.
  repeat (split; [reflexivity|]).
  apply (C2_last_entry_wins Lib.json_loads Lib.urlparse Lib.parse_qs
           None users_1 users_2); reflexivity.
Defined.

Lemma C3_unparseable_body_ignored_witness :
  Lib.json_loads "<html>" = None
  /\ extract_schema_from_json Lib.json_loads (PStr "<html>") = PDict []
  /\ generate_endpoint_description Lib.json_loads "/items" "post"
       (Har.request_of html_entry) (Har.response_of html_entry) =
     "Create items (Success: 200)".
Proof.
  split; [reflexivity|]. split.
  - apply (C3_unparseable_body_ignored Lib.json_loads "<html>"). reflexivity.
  - apply (C3_unparseable_body_ignored Lib.json_loads "<html>" eq_refl);
      reflexivity.
Defined.

(** C8: an entry whose URL has the scheme [httpx] passes the scheme test,
    which only looks for the prefix [http], and contributes a path and an
    operation to the document. *)
Theorem C8_scheme_test_admits_httpx :
  scheme (Lib.urlparse "httpx://example.com/users/1") = "httpx"
  /\ skipped Lib.urlparse None httpx_entry = false
  /\ PyDict.keys
       (assemble_paths Lib.json_loads Lib.urlparse Lib.parse_qs [httpx_entry] None) =
     ["/users/{id_2}"]
  /\ operation_at
       (convert_har_to_openapi Lib.json_loads Lib.urlparse Lib.parse_qs
          [httpx_entry] None)
       "/users/{id_2}" "get" =
     Some (PDict (entry_operation Lib.json_loads Lib.urlparse Lib.parse_qs
                    httpx_entry)).
Proof. repeat split; reflexivity. Qed.

(** C9 as stated fails on an empty array: the list clause is appended. *)
Lemma C9_counterexample :
  Lib.json_loads "[]" = Some (PList [])
  /\ response_desc Lib.json_loads "items" (Har.response_of empty_list_entry) <> ""
  /\ generate_endpoint_description Lib.json_loads "/items" "get"
       (Har.request_of empty_list_entry) (Har.response_of empty_list_entry) =
     "Retrieve items Returns a list of itemss (Success: 200)".
Proof.
  split; [reflexivity|]. split; [|reflexivity]. vm_compute. discriminate.
Qed.

Lemma C10_repeated_literal_keeps_last_name_witness :
  nth_error (PyStr.split "/" repeated_path) 1 = Some "5"
  /\ nth_error (PyStr.split "/" repeated_path) 3 = Some "5"
  /\ 1 < 3
  /\ classify "5" = Some "id"
  /\ standardize_path repeated_path = ("/{id_1}/things/{id_3}", [("5", "id_3")])
  /\ ~ In "id_1" (PyDict.values (snd (standardize_path repeated_path))).
Proof.
  repeat (split; [first [reflexivity | lia]|]).
  apply (C10_repeated_literal_keeps_last_name Lib.json_loads Lib.parse_qs
           repeated_path "5" "id" 1 3); try reflexivity; try lia.
  intros n Hn. do 4 (destruct n as [|n]; [lia|]). simpl. now destruct n.
Defined.


(** * Further properties *)

(** ** Schema inference *)

Lemma set_fresh {V : Type} k (v : V) d :
  ~ In k (PyDict.keys d) -> PyDict.set k v d = (d ++ [(k, v)])%list.
Proof.
  induction d as [|[k' v'] d IH]; simpl; [reflexivity|].
  intros H. destruct (String.eqb k k') eqn:E.
  - apply String.eqb_eq in E. subst. tauto.
  - rewrite IH; tauto.
Qed.

Lemma schema_of_items_properties gen items properties required :
  NoDup (PyDict.keys properties ++ PyDict.keys items)%list ->
  fst (schema_of_items gen items (properties, required)) =
  (properties ++ map (fun kv => (fst kv, gen (snd kv))) items)%list.
Proof.
  revert properties required.
  induction items as [|[key value] items IH]; intros properties required Hnd; simpl.
  - now rewrite app_nil_r.
  - assert (Hfresh : ~ In key (PyDict.keys properties)).
    { simpl in Hnd. apply NoDup_remove_2 in Hnd. intros H. apply Hnd.
      apply in_or_app. now left. }
    rewrite set_fresh by exact Hfresh. rewrite IH.
    + now rewrite <- app_assoc.
    + unfold PyDict.keys in *. rewrite map_app. simpl. rewrite <- app_assoc.
      exact Hnd.
Qed.

(** X1: the property schemas of an object follow its items: one per key,
    in the order of the keys, each the schema of the value. *)
Theorem object_properties_follow_items :
  forall items : pydict,
    PyDict.wf items ->
    schema_get "properties" (generate_schema (PDict items)) =
    Some (PDict (map (fun kv => (fst kv, generate_schema (snd kv))) items)).
Proof.
  intros items Hwf. cbn [generate_schema isinstance schema_get].
  cbn [PyDict.get String.eqb Ascii.eqb Bool.eqb].
  now rewrite schema_of_items_properties.
Qed.

Lemma object_properties_follow_items_witness :
  PyDict.wf [("a", PInt 1); ("b", PList [PNone])]
  /\ schema_get "properties"
       (generate_schema (PDict [("a", PInt 1); ("b", PList [PNone])])) =
     Some (PDict [("a", generate_schema (PInt 1));
                  ("b", generate_schema (PList [PNone]))]).
Proof.
  assert (H : PyDict.wf [("a", PInt 1); ("b", PList [PNone])]).
  { repeat constructor; simpl; intuition discriminate. }
  split; [exact H|].
  exact (object_properties_follow_items _ H).
Defined.

(** X2: the ["required"] entry of an object schema lists the keys bound
    to a non-null value in the order of the object, and is [None], never
    an empty list, when there is none. *)
Theorem required_entry_is_list_or_none :
  forall items : pydict,
    let names := PyDict.keys (filter (fun kv => is_not_none (snd kv)) items) in
    schema_get "required" (generate_schema (PDict items)) =
      Some (match names with
            | [] => PNone
            | _ :: _ => PList (map PStr names)
            end)
    /\ schema_get "required" (generate_schema (PDict items)) <> Some (PList []).
Proof.
  intros items names. cbn [generate_schema isinstance schema_get].
  cbn [PyDict.get String.eqb Ascii.eqb Bool.eqb].
  rewrite schema_of_items_required. cbn [app]. fold names.
  unfold required_or_none. split; [reflexivity|].
  destruct names; simpl; discriminate.
Qed.

Lemma generate_schema_not_empty data : generate_schema data <> PDict [].
Proof.
  destruct data as [| | | | |items|items]; try discriminate.
  destruct items; discriminate.
Qed.

(** X3: on a string, [extract_schema_from_json] gives the empty schema
    exactly when the string does not parse: a body that parses always
    gets a schema with a type. *)
Theorem empty_schema_iff_unparseable :
  forall (json_loads : string -> option pyval) (s : string),
    (extract_schema_from_json json_loads (PStr s) = PDict []
     <-> json_loads s = None)
    /\ forall data, json_loads s = Some data ->
         exists type, schema_get "type"
                        (extract_schema_from_json json_loads (PStr s)) =
                      Some (PStr type).
Proof.
  intros json_loads s. unfold extract_schema_from_json. simpl. split.
  - destruct (json_loads s) as [data|]; split; intros H;
      try reflexivity; try discriminate.
    now apply generate_schema_not_empty in H.
  - intros data ->. destruct data as [| | | | |[|first rest]|items];
      eexists; reflexivity.
Qed.

(** ** The patterns of the path segments *)

Lemma length_append s t : String.length (s ++ t) = String.length s + String.length t.
Proof. induction s as [|c s IH]; simpl; [reflexivity|now rewrite IH]. Qed.




(** What a repetition accepts: a run of the class within the bounds, and
    a rest that the continuation accepts. *)
Lemma repeat_then_sound cls k s :
  forall lo hi,
    Re.repeat_then cls k lo hi s = true ->
    exists run rest,
      s = run ++ rest
      /\ lo <= String.length run
      /\ (forall h, hi = Some h -> String.length run <= h)
      /\ PyStr.forall_chars cls run = true
      /\ k rest = true.
Proof.
  induction s as [|c s IH]; intros lo hi H; simpl in H.
  - rewrite orb_false_r in H. apply andb_true_iff in H. destruct H as [Hlo Hk].
    apply Nat.eqb_eq in Hlo. exists "", "". simpl. repeat split; auto; lia.
  - apply orb_true_iff in H. destruct H as [H|H].
    + apply andb_true_iff in H. destruct H as [Hlo Hk].
      apply Nat.eqb_eq in Hlo. exists "", (String c s). simpl.
      repeat split; auto; lia.
    + assert (Hhi : hi <> Some 0) by (intros ->; discriminate).
      assert (H' : cls c && Re.repeat_then cls k (Nat.pred lo)
                               (option_map Nat.pred hi) s = true).
      { destruct hi as [[|h]|]; [congruence|exact H|exact H]. }
      apply andb_true_iff in H'. destruct H' as [Hc Hrest].
      destruct (IH _ _ Hrest) as (run & rest & -> & Hlen & Hmax & Hrun & Hk).
      exists (String c run), rest. simpl. rewrite Hc, Hrun.
      repeat split; auto; [lia|].
      intros h ->. destruct h as [|h]; [congruence|].
      specialize (Hmax h eq_refl). lia.
Qed.


(** A match is at least as long as the pattern asks. *)
Lemma matches_min_length pattern :
  forall s, Re.matches pattern s = true -> min_length pattern <= String.length s.
Proof.
  induction pattern as [|[cls lo hi|c] pattern IH]; intros s H; simpl in *.
  - lia.
  - apply repeat_then_sound in H.
    destruct H as (run & rest & -> & Hlen & _ & _ & Hk).
    apply IH in Hk. rewrite length_append. lia.
  - destruct s as [|c' s]; [discriminate|].
    apply andb_true_iff in H. destruct H as [_ H]. apply IH in H. simpl. lia.
Qed.


Lemma classify_first_match s kind :
  classify s = Some kind ->
  exists pattern, In (pattern, kind) patterns /\ Re.matches pattern s = true.
Proof.
  unfold classify. destruct (PyStr.nonempty s); [|discriminate].
  generalize patterns as ps. induction ps as [|[pattern k] ps IH]; simpl;
    [discriminate|].
  destruct (Re.matches pattern s) eqn:E.
  - intros [= <-]. exists pattern. split; [now left|exact E].
  - intros H. destruct (IH H) as (p & Hin & Hm). exists p. split; [now right|exact Hm].
Qed.


(** X5: a segment that is rewritten and is not an [id] has at least 20
    characters: no shorter word of a path is ever taken for a parameter. *)
Theorem parameterized_words_are_long :
  forall s kind : string,
    classify s = Some kind -> kind <> "id" -> 20 <= String.length s.
Proof.
  intros s kind H Hid. apply classify_first_match in H.
  destruct H as (pattern & Hin & Hm). apply matches_min_length in Hm.
  cbn [patterns In] in Hin.
  destruct Hin as [[= <- <-]|[[= <- <-]|[[= <- <-]|[[= <- <-]|[]]]]];
    simpl in Hm; try lia. congruence.
Qed.

Lemma parameterized_words_are_long_witness :
  classify "3f29c4a1b2e3445e9aa1d2c3b4e5f6a7" = Some "hash"
  /\ "hash" <> "id"
  /\ 20 <= String.length "3f29c4a1b2e3445e9aa1d2c3b4e5f6a7".
Proof.
  assert (H1 : classify "3f29c4a1b2e3445e9aa1d2c3b4e5f6a7" = Some "hash")
    by reflexivity.
  assert (H2 : "hash" <> "id") by discriminate.
  repeat split; [exact H2|].
  exact (parameterized_words_are_long _ _ H1 H2).
Defined.




(** ** Path standardisation *)

Lemma join_split sep s :
  PyStr.join (String sep "") (PyStr.split sep s) = s.
Proof.
  unfold PyStr.join. induction s as [|c s IH]; simpl; [reflexivity|].
  pose proof (split_not_nil sep s) as Hne.
  destruct (Ascii.eqb c sep) eqn:E.
  - apply Ascii.eqb_eq in E. subst c.
    destruct (PyStr.split sep s) as [|h t]; [congruence|].
    change (String.concat (String sep "") ("" :: h :: t))
      with ("" ++ String sep "" ++ String.concat (String sep "") (h :: t)).
    simpl. simpl in IH. now rewrite IH.
  - destruct (PyStr.split sep s) as [|h t]; [congruence|].
    destruct t as [|y t]; simpl in *; now rewrite IH.
Qed.

Lemma rewrite_from_length i segments :
  List.length (rewrite_from i segments) = List.length segments.
Proof.
  revert i. induction segments as [|s segments IH]; intros i; simpl; auto.
Qed.

(** X7: the template has as many segments as the path, and every segment
    that matches no pattern, the empty ones of leading, trailing and
    doubled slashes included, stays where it is. *)
Theorem unmatched_segments_stay :
  forall path,
    List.length (PyStr.split "/" (fst (standardize_path path))) =
    List.length (PyStr.split "/" path)
    /\ forall i segment,
        nth_error (PyStr.split "/" path) i = Some segment ->
        classify segment = None ->
        nth_error (PyStr.split "/" (fst (standardize_path path))) i = Some segment.
Proof.
  intros path. rewrite template_segments. split.
  - apply rewrite_from_length.
  - intros i segment Hn Hk. rewrite nth_error_rewrite_from, Hn. simpl.
    unfold rewritten. now rewrite Hk.
Qed.

Lemma unmatched_segments_stay_witness :
  nth_error (PyStr.split "/" "/api//users/42/") 2 = Some ""
  /\ classify "" = None
  /\ nth_error (PyStr.split "/" (fst (standardize_path "/api//users/42/"))) 2 =
     Some "".
Proof.
  repeat (split; [reflexivity|]).
  apply (proj2 (unmatched_segments_stay "/api//users/42/")); reflexivity.
Defined.

(** X8: a path none of whose segments matches a pattern is returned as it
    is, with an empty mapping. *)
Theorem unparameterized_path_unchanged :
  forall path,
    (forall segment, In segment (PyStr.split "/" path) -> classify segment = None) ->
    standardize_path path = (path, []).
Proof.
  intros path H. unfold standardize_path.
  rewrite standardize_segments_fixed by exact H.
  now rewrite join_split.
Qed.

Lemma unparameterized_path_unchanged_witness :
  (forall segment, In segment (PyStr.split "/" "/api/v1/users/") ->
                   classify segment = None)
  /\ standardize_path "/api/v1/users/" = ("/api/v1/users/", []).
Proof.
  assert (H : forall segment, In segment (PyStr.split "/" "/api/v1/users/") ->
                              classify segment = None).
  { simpl. intros segment Hin.
    repeat (destruct Hin as [<-|Hin]; [reflexivity|]). destruct Hin. }
  split; [exact H|].
  exact (unparameterized_path_unchanged _ H).
Defined.

Lemma mapping_entry_origin path literal name :
  In (literal, name) (snd (standardize_path path)) ->
  exists n kind,
    nth_error (PyStr.split "/" path) n = Some literal
    /\ classify literal = Some kind
    /\ name = param_name kind n.
Proof.
  intros Hin. apply wf_In_get in Hin; [|apply mapping_wf].
  rewrite standardize_path_mapping, standardize_segments_get in Hin.
  simpl PyDict.get in Hin. apply last_name_origin in Hin.
  destruct Hin as [[Hnone _]|(n & kind & Hn & Hk & Hname & _)]; [discriminate|].
  exists n, kind. auto.
Qed.

Lemma injective_values_NoDup {V : Type} (d : list (string * V)) :
  PyDict.wf d ->
  (forall k1 k2 v, In (k1, v) d -> In (k2, v) d -> k1 = k2) ->
  NoDup (PyDict.values d).
Proof.
  unfold PyDict.wf. induction d as [|[k v] d IH]; simpl; intros Hwf Hinj.
  - constructor.
  - inversion Hwf as [|? ? Hnot Hwf']; subst. constructor.
    + intros Hin. unfold PyDict.values in Hin. apply in_map_iff in Hin.
      destruct Hin as [[k' v'] [Hv Hin]]. simpl in Hv. subst v'.
      assert (k' = k) by (apply (Hinj k' k v); [now right|now left]).
      subst k'. apply Hnot. change k with (fst (k, v)). now apply in_map.
    + apply IH; [exact Hwf'|]. intros k1 k2 v0 H1 H2.
      apply (Hinj k1 k2 v0); now right.
Qed.

(** X9: in the mapping no literal is listed twice and no name is given
    to two literals. *)
Theorem mapping_is_one_to_one :
  forall path,
    NoDup (PyDict.keys (snd (standardize_path path)))
    /\ NoDup (PyDict.values (snd (standardize_path path))).
Proof.
  intros path. split; [apply mapping_wf|].
  apply injective_values_NoDup; [apply mapping_wf|].
  intros k1 k2 name H1 H2.
  apply mapping_entry_origin in H1. destruct H1 as (n1 & kind1 & Hn1 & Hk1 & E1).
  apply mapping_entry_origin in H2. destruct H2 as (n2 & kind2 & Hn2 & Hk2 & E2).
  rewrite E1 in E2. apply param_name_inj in E2;
    [|now apply (classify_kind k1)|now apply (classify_kind k2)].
  destruct E2 as [_ <-]. congruence.
Qed.

Lemma last_name_keeps i segments literal before :
  before <> None -> last_name i segments literal before <> None.
Proof.
  revert i before. induction segments as [|s segments IH]; intros i before H; simpl.
  - exact H.
  - apply IH. destruct (classify s); [|exact H].
    destruct (String.eqb literal s); [discriminate|exact H].
Qed.

Lemma last_name_assigned i segments literal kind before :
  In literal segments -> classify literal = Some kind ->
  last_name i segments literal before <> None.
Proof.
  revert i before. induction segments as [|s segments IH]; intros i before Hin Hk;
    simpl in *; [contradiction|].
  destruct Hin as [->|Hin].
  - apply last_name_keeps. rewrite Hk, String.eqb_refl. discriminate.
  - now apply IH.
Qed.

(** X10: the mapping has an entry for a literal exactly when the literal
    is a segment of the path that matches a pattern, and the placeholder
    of every name in the mapping is a segment of the template. *)
Theorem mapping_covers_parameterized_segments :
  forall path,
    (forall literal,
        In literal (PyDict.keys (snd (standardize_path path)))
        <-> In literal (PyStr.split "/" path) /\ classify literal <> None)
    /\ forall literal name,
        In (literal, name) (snd (standardize_path path)) ->
        In (placeholder name) (PyStr.split "/" (fst (standardize_path path))).
Proof.
  intros path. split.
  - intros literal. split.
    + intros Hin. apply keys_get in Hin. destruct Hin as [name Hget].
      apply get_In, mapping_entry_origin in Hget.
      destruct Hget as (n & kind & Hn & Hk & _). split.
      * eapply nth_error_In. exact Hn.
      * congruence.
    + intros [Hin Hk]. destruct (classify literal) as [kind|] eqn:E; [|congruence].
      destruct (PyDict.get literal (snd (standardize_path path))) as [name|] eqn:G.
      * apply get_In in G. change literal with (fst (literal, name)).
        now apply in_map.
      * exfalso. rewrite standardize_path_mapping, standardize_segments_get in G.
        revert G. now apply (last_name_assigned _ _ _ kind).
  - intros literal name Hin. apply mapping_entry_origin in Hin.
    destruct Hin as (n & kind & Hn & Hk & ->).
    eapply nth_error_In. apply (segment_name_indexed path n literal); eauto.
Qed.

(** ** Descriptions, operations and documents *)

Lemma rewrite_from_app i segments segments' :
  rewrite_from i (segments ++ segments')%list =
  (rewrite_from i segments
     ++ rewrite_from (i + List.length segments) segments')%list.
Proof.
  revert i. induction segments as [|s segments IH]; intros i; simpl.
  - now rewrite Nat.add_0_r.
  - rewrite IH. now rewrite Nat.add_succ_r.
Qed.

Lemma rewrite_from_empty i segments :
  (forall s, In s segments -> s = "") ->
  filter PyStr.nonempty (rewrite_from i segments) = [].
Proof.
  revert i. induction segments as [|s segments IH]; intros i H; simpl.
  - reflexivity.
  - rewrite (H s) by now left. simpl. apply IH. intros s' Hs'. apply H. now right.
Qed.

Lemma keys_set {V : Type} k (v : V) d :
  PyDict.keys (PyDict.set k v d) =
  if PyDict.mem k d then PyDict.keys d else (PyDict.keys d ++ [k])%list.
Proof.
  unfold PyDict.mem. induction d as [|[k' v'] d IH]; simpl; [reflexivity|].
  destruct (String.eqb k k') eqn:E; simpl; [reflexivity|].
  rewrite IH. now destruct (PyDict.get k d).
Qed.

Lemma mem_set_other {V : Type} k k' (v : V) d :
  k <> k' -> PyDict.mem k (PyDict.set k' v d) = PyDict.mem k d.
Proof. intros H. unfold PyDict.mem. now rewrite get_set_other. Qed.

Section AssemblyMore.

Variable json_loads : string -> option pyval.
Variable urlparse : string -> ParseResult.
Variable parse_qs : string -> list (string * list string).

#[local] Abbreviation operation_of := (entry_operation json_loads urlparse parse_qs).
#[local] Abbreviation paths_of := (assemble_paths json_loads urlparse parse_qs).
#[local] Abbreviation document_of :=
  (convert_har_to_openapi json_loads urlparse parse_qs).

(** X11: when the last non-empty segment of a path matches a pattern, the
    resource named in the description of its template is the placeholder
    of that segment, not a word of the path. *)
Theorem resource_of_template_is_placeholder :
  forall path before segment after kind method request response,
    PyStr.split "/" path = (before ++ segment :: after)%list ->
    (forall s, In s after -> s = "") ->
    classify segment = Some kind ->
    let template := fst (standardize_path path) in
    let resource := placeholder (param_name kind (List.length before)) in
    resource_of template = resource
    /\ generate_endpoint_description json_loads template method request response =
       (((method_desc method ++ " " ++ resource)
           ++ field_desc json_loads request)
          ++ response_desc json_loads resource response)
         ++ status_note (get_or 200%Z (Har.status response)).
Proof.
  intros path before segment after kind method request response Hsplit Hafter Hk
         template resource.
  assert (Hres : resource_of template = resource).
  { assert (Hseg : rewritten (0 + List.length before) segment = resource).
    { unfold rewritten. now rewrite Hk. }
    unfold resource_of. subst template. rewrite template_segments, Hsplit.
    rewrite rewrite_from_app. cbn [rewrite_from]. rewrite filter_app, Hseg.
    cbn [filter]. change (PyStr.nonempty resource) with true. cbv iota.
    rewrite (rewrite_from_empty _ after Hafter). apply last_last. }
  split; [exact Hres|].
  rewrite (description_shape json_loads), Hres. reflexivity.
Qed.

(** X12: the parameters of an operation are the query parameters, one
    per field name and in the order of the query string, followed by the
    path parameters, one per entry of the mapping and in its order; all
    are marked required; and the operation has a ["parameters"] key
    exactly when there is one of them. *)
Theorem operation_parameters_in_order :
  forall path param_mapping method parsed_url request response,
    let operation :=
      make_operation json_loads parse_qs path param_mapping method parsed_url
        request response in
    let query_names := PyDict.keys (parse_qs (query parsed_url)) in
    operation_parameters operation =
      (map query_parameter query_names ++ map path_parameter param_mapping)%list
    /\ PyDict.mem "parameters" operation =
       PyDict.nonempty (parse_qs (query parsed_url))
       || PyDict.nonempty param_mapping
    /\ forall p, In p (operation_parameters operation) ->
         schema_get "required" p = Some (PBool true).
Proof.
  intros path param_mapping method parsed_url request response operation
         query_names.
  assert (Hall : forall p,
             In p (map query_parameter query_names
                     ++ map path_parameter param_mapping)%list ->
             schema_get "required" p = Some (PBool true)).
  { intros p Hin. apply in_app_or in Hin.
    destruct Hin as [Hin|Hin]; apply in_map_iff in Hin.
    - destruct Hin as [n [<- _]]. reflexivity.
    - destruct Hin as [[v n] [<- _]]. reflexivity. }
  assert (H : operation_parameters operation =
              (map query_parameter query_names
                 ++ map path_parameter param_mapping)%list
              /\ PyDict.mem "parameters" operation =
                 PyDict.nonempty (parse_qs (query parsed_url))
                 || PyDict.nonempty param_mapping).
  { subst operation query_names. unfold make_operation. cbv zeta.
    match goal with
    | |- context [add_request_body json_loads request ?base] =>
        set (op2 := add_request_body json_loads request base)
    end.
    assert (H2 : PyDict.get "parameters" op2 = None).
    { subst op2. unfold add_request_body.
      destruct (Har.postData request) as [[|kv pd]|]; reflexivity. }
    unfold add_path_parameters, add_query_parameters.
    unfold operation_parameters, append_parameters, PyDict.mem.
    destruct (parse_qs (query parsed_url)) as [|q qs];
      destruct param_mapping as [|kv m]; cbn [PyDict.nonempty orb];
      repeat (rewrite ?H2, ?get_set_same; cbv iota);
      rewrite ?app_nil_r; split; reflexivity. }
  destruct H as [Hps Hmem]. repeat split; auto.
  intros p Hin. apply Hall. now rewrite <- Hps.
Qed.

Lemma store_operation_spec path method operation paths :
  paths_wf paths ->
  store_operation path method operation paths =
  PyDict.set path
    (PDict (PyDict.set method (PDict operation) (methods_at paths path)))
    (if PyDict.mem path paths then paths else PyDict.set path (PDict []) paths).
Proof.
  intros Hwf. unfold store_operation, methods_at, PyDict.mem.
  destruct (PyDict.get path paths) as [v|] eqn:E.
  - destruct (paths_wf_get _ _ _ Hwf E) as (methods & -> & _). now rewrite E.
  - now rewrite get_set_same.
Qed.

(** X13: after an entry is added to a log, the operation under a key is
    the entry's own when the entry is not skipped and the key is its
    template and method, and the one the log had before under every other
    key: the last entry of a key wins, and no other key is touched. *)
Theorem operation_after_entry :
  forall path_prefix entries entry template method,
    operation_at (document_of (entries ++ [entry]) path_prefix) template method =
    if negb (skipped urlparse path_prefix entry)
       && String.eqb template (entry_path urlparse entry)
       && String.eqb method (entry_method entry)
    then Some (PDict (operation_of entry))
    else operation_at (document_of entries path_prefix) template method.
Proof.
  intros path_prefix entries entry template method.
  unfold operation_at, convert_har_to_openapi.
  cbn [schema_get PyDict.get String.eqb Ascii.eqb Bool.eqb].
  rewrite assemble_paths_snoc. unfold process_entry.
  destruct (skipped urlparse path_prefix entry); [reflexivity|].
  cbn [negb andb].
  pose proof (assemble_paths_wf json_loads urlparse parse_qs entries path_prefix)
    as Hwf.
  rewrite store_operation_spec by exact Hwf.
  set (paths := paths_of entries path_prefix) in *.
  destruct (String.eqb template (entry_path urlparse entry)) eqn:Et.
  - apply String.eqb_eq in Et. subst template. rewrite get_set_same.
    destruct (String.eqb method (entry_method entry)) eqn:Em; cbn [andb].
    + apply String.eqb_eq in Em. subst method. apply get_set_same.
    + apply String.eqb_neq in Em. rewrite get_set_other by exact Em.
      unfold methods_at.
      destruct (PyDict.get (entry_path urlparse entry) paths) as [v|] eqn:E;
        [|reflexivity].
      destruct (paths_wf_get _ _ _ Hwf E) as (methods & -> & _). reflexivity.
  - apply String.eqb_neq in Et. cbn [andb].
    rewrite get_set_other by exact Et.
    destruct (PyDict.mem (entry_path urlparse entry) paths); [reflexivity|].
    now rewrite get_set_other by exact Et.
Qed.

(** X14: an entry whose URL scheme does not start with [http], or whose
    path does not start with a prefix that is given and not empty, leaves
    the document as it would be without the entry, wherever it stands in
    the log. *)
Theorem filtered_entry_leaves_no_trace :
  forall path_prefix entry before after,
    let parsed_url := urlparse (get_or "" (Har.url (Har.request_of entry))) in
    PyStr.startswith "http" (scheme parsed_url) = false
    \/ (prefix_given path_prefix = true
        /\ PyStr.startswith (get_or "" path_prefix) (path parsed_url) = false) ->
    document_of (before ++ entry :: after) path_prefix =
    document_of (before ++ after) path_prefix.
Proof.
  intros path_prefix entry before after parsed_url H.
  assert (Hs : skipped urlparse path_prefix entry = true).
  { unfold skipped. fold parsed_url. destruct H as [H|[Hp H]].
    - now rewrite H.
    - rewrite Hp, H. now destruct (PyStr.startswith "http" (scheme parsed_url)). }
  unfold convert_har_to_openapi.
  now rewrite (skipped_entry_contributes_nothing json_loads urlparse parse_qs
                 path_prefix before entry after Hs).
Qed.

(** X15: the templates of the document stand in the order in which the
    log first reaches them: an entry that is not skipped appends its
    template when the document does not have it, and moves nothing. *)
Theorem templates_in_order_of_first_appearance :
  forall path_prefix entries entry,
    PyDict.keys (paths_of (entries ++ [entry]) path_prefix) =
    if skipped urlparse path_prefix entry
    then PyDict.keys (paths_of entries path_prefix)
    else if PyDict.mem (entry_path urlparse entry) (paths_of entries path_prefix)
         then PyDict.keys (paths_of entries path_prefix)
         else (PyDict.keys (paths_of entries path_prefix)
                 ++ [entry_path urlparse entry])%list.
Proof.
  intros path_prefix entries entry. rewrite assemble_paths_snoc.
  unfold process_entry.
  destruct (skipped urlparse path_prefix entry); [reflexivity|].
  rewrite store_operation_spec by apply assemble_paths_wf.
  rewrite keys_set.
  destruct (PyDict.mem (entry_path urlparse entry) (paths_of entries path_prefix))
    eqn:E.
  - now rewrite E.
  - unfold PyDict.mem at 1. rewrite get_set_same. now rewrite keys_set, E.
Qed.

End AssemblyMore.

(** ** Path parameters of a URL pattern *)

Lemma run_to_slash_segment segment rest :
  PyStr.has_char "/" segment = false ->
  rest = "" \/ (exists rest', rest = String "/" rest') ->
  run_to_slash (segment ++ rest) = segment.
Proof.
  intros Hfree Hrest. induction segment as [|c segment IH]; simpl in *.
  - destruct Hrest as [->|[rest' ->]]; reflexivity.
  - destruct (Ascii.eqb c "/"); [discriminate|]. now rewrite IH.
Qed.

Lemma before_last_brace_shorter run group :
  before_last_brace run = Some group -> String.length group < String.length run.
Proof.
  revert group. induction run as [|c run IH]; simpl; intros group; [discriminate|].
  destruct (before_last_brace run) as [g|].
  - intros [= <-]. simpl. specialize (IH g eq_refl). lia.
  - destruct (Ascii.eqb c "}"); [|discriminate]. intros [= <-]. simpl. lia.
Qed.

Lemma before_last_brace_closed group :
  before_last_brace (group ++ "}") = Some group.
Proof. induction group as [|c group IH]; simpl; [reflexivity|now rewrite IH]. Qed.

Lemma match_parameter_no_slash c rest :
  Ascii.eqb c "/" = false -> match_parameter (String c rest) = None.
Proof.
  destruct c as [[] [] [] [] [] [] [] []]; intros H;
    first [reflexivity | discriminate H].
Qed.

Lemma match_parameter_other c rest :
  c <> "{"%char -> c <> ":"%char ->
  match_parameter (String "/" (String c rest)) = None
  /\ segment_parameter (String c rest) = [].
Proof.
  destruct c as [[] [] [] [] [] [] [] []]; intros H1 H2;
    first [split; reflexivity | congruence].
Qed.

(** Inside a segment no attempt succeeds. *)
Lemma findall_through_segment segment rest :
  PyStr.has_char "/" segment = false ->
  forall skip, skip <= String.length segment ->
    findall_parameters skip (segment ++ rest) = findall_parameters 0 rest.
Proof.
  intros Hfree. induction segment as [|c segment IH]; intros skip Hskip;
    simpl in Hfree, Hskip; cbn [append findall_parameters].
  - now assert (skip = 0) as -> by lia.
  - destruct (Ascii.eqb c "/") eqn:E; [discriminate|]. simpl in Hfree.
    destruct skip as [|skip].
    + rewrite (match_parameter_no_slash c _ E). apply IH; [exact Hfree|lia].
    + apply IH; [exact Hfree|lia].
Qed.

Lemma findall_unfold c rest :
  findall_parameters 0 (String c rest) =
  match match_parameter (String c rest) with
  | Some (group1, group2, matched) =>
      (group1, group2) :: findall_parameters (matched - 1) rest
  | None => findall_parameters 0 rest
  end.
Proof. reflexivity. Qed.

Lemma match_parameter_brace rest :
  match_parameter (String "/" (String "{" rest)) =
  match before_last_brace (run_to_slash rest) with
  | Some (String a group) =>
      Some (String a group, "", 3 + String.length (String a group))
  | _ => None
  end.
Proof.
  unfold match_parameter.
  now destruct (before_last_brace (run_to_slash rest)) as [[|a group]|].
Qed.

Lemma match_parameter_colon rest :
  match_parameter (String "/" (String ":" rest)) =
  match run_to_slash rest with
  | String a group => Some ("", String a group, 2 + String.length (String a group))
  | EmptyString => None
  end.
Proof. unfold match_parameter. now destruct (run_to_slash rest). Qed.

Lemma findall_segment segment rest :
  PyStr.has_char "/" segment = false ->
  rest = "" \/ (exists rest', rest = String "/" rest') ->
  map pick_group (findall_parameters 0 (String "/" (segment ++ rest))) =
  (segment_parameter segment ++ map pick_group (findall_parameters 0 rest))%list.
Proof.
  intros Hfree Hrest.
  assert (Hskip : forall skip, skip <= String.length segment ->
             findall_parameters skip (segment ++ rest) = findall_parameters 0 rest).
  { now apply findall_through_segment. }
  rewrite findall_unfold.
  destruct segment as [|c segment].
  - cbn [append]. destruct Hrest as [->|[rest' ->]]; reflexivity.
  - destruct (Ascii.eqb_spec c "{") as [->|Hbrace];
      [|destruct (Ascii.eqb_spec c ":") as [->|Hcolon]].
    + change (String "{" segment ++ rest) with (String "{" (segment ++ rest)).
      rewrite match_parameter_brace. simpl in Hfree.
      rewrite (run_to_slash_segment segment rest Hfree Hrest).
      cbn [segment_parameter].
      change (String "{" (segment ++ rest)) with (String "{" segment ++ rest).
      destruct (before_last_brace segment) as [[|g group]|] eqn:E;
        try (cbn [app]; f_equal; apply Hskip; lia).
      apply before_last_brace_shorter in E.
      cbn [map app pick_group fst PyStr.nonempty]. f_equal. f_equal.
      apply Hskip. simpl in *. lia.
    + change (String ":" segment ++ rest) with (String ":" (segment ++ rest)).
      rewrite match_parameter_colon. simpl in Hfree.
      rewrite (run_to_slash_segment segment rest Hfree Hrest).
      cbn [segment_parameter].
      change (String ":" (segment ++ rest)) with (String ":" segment ++ rest).
      destruct segment as [|g group];
        [cbn [app]; f_equal; apply Hskip; lia|].
      cbn [map app pick_group fst snd PyStr.nonempty]. f_equal. f_equal.
      apply Hskip. simpl. lia.
    + destruct (match_parameter_other c (segment ++ rest) Hbrace Hcolon) as [Hm _].
      destruct (match_parameter_other c segment Hbrace Hcolon) as [_ Hs].
      change (String c segment ++ rest) with (String c (segment ++ rest)) at 1.
      rewrite Hm, Hs. cbn [app]. f_equal. apply Hskip. lia.
Qed.

Lemma slashed_starts segments :
  slashed segments = "" \/ exists rest, slashed segments = String "/" rest.
Proof. destruct segments; simpl; eauto. Qed.

Lemma findall_slashed segments :
  (forall s, In s segments -> PyStr.has_char "/" s = false) ->
  map pick_group (findall_parameters 0 (slashed segments)) =
  flat_map segment_parameter segments.
Proof.
  induction segments as [|s segments IH]; intros Hfree; cbn [slashed flat_map];
    [reflexivity|].
  rewrite findall_segment.
  - rewrite IH; [reflexivity|]. intros s' Hs'. apply Hfree. now right.
  - apply Hfree. now left.
  - apply slashed_starts.
Qed.

Lemma join_slashed first rest :
  PyStr.join "/" (first :: rest) = first ++ slashed rest.
Proof.
  unfold PyStr.join. revert first.
  induction rest as [|s rest IH]; intros first.
  - simpl. now rewrite append_empty_r.
  - change (String.concat "/" (first :: s :: rest))
      with (first ++ "/" ++ String.concat "/" (s :: rest)).
    rewrite IH. reflexivity.
Qed.

Lemma extract_by_segment url :
  extract_path_parameters url =
  flat_map segment_parameter (tl (PyStr.split "/" url)).
Proof.
  unfold extract_path_parameters. fold pick_group.
  pose proof (join_split "/" url) as Hjoin.
  assert (Hfree : forall s, In s (PyStr.split "/" url) ->
                            PyStr.has_char "/" s = false).
  { intros s. apply split_pieces_free. }
  destruct (PyStr.split "/" url) as [|first rest] eqn:E.
  - now destruct (split_not_nil "/" url).
  - rewrite join_slashed in Hjoin. rewrite <- Hjoin at 1.
    rewrite findall_through_segment; [|apply Hfree; now left|lia].
    apply findall_slashed. intros s Hs. apply Hfree. now right.
Qed.

(** X16: [extract_path_parameters] works segment by segment: from each
    segment after the first [/] it takes the text between a leading [{]
    and the last [}] of the segment, or the text after a leading [:],
    when that text is not empty, and nothing else. *)
Theorem extract_path_parameters_by_segment :
  forall url,
    extract_path_parameters url =
    flat_map segment_parameter (tl (PyStr.split "/" url)).
Proof. exact extract_by_segment. Qed.

Lemma placeholder_parameter kind i :
  In kind kinds -> segment_parameter (placeholder (param_name kind i)) = [param_name kind i].
Proof.
  intros Hk. unfold placeholder. cbn [append segment_parameter].
  rewrite before_last_brace_closed.
  each_kind Hk; unfold param_name; destruct i; reflexivity.
Qed.

(** X17: every placeholder that [standardize_path] writes after the first
    [/] of a template is found again by [extract_path_parameters]. *)
Theorem template_parameters_are_extracted :
  forall path i segment kind,
    1 <= i ->
    nth_error (PyStr.split "/" path) i = Some segment ->
    classify segment = Some kind ->
    In (param_name kind i) (extract_path_parameters (fst (standardize_path path))).
Proof.
  intros path i segment kind Hi Hn Hk.
  rewrite extract_by_segment. apply in_flat_map.
  exists (placeholder (param_name kind i)). split.
  - pose proof (segment_name_indexed path i segment kind Hn Hk) as H.
    destruct i as [|i]; [lia|].
    destruct (PyStr.split "/" (fst (standardize_path path))) as [|first rest];
      [discriminate|].
    simpl in *. eapply nth_error_In. exact H.
  - rewrite placeholder_parameter; [now left|]. now apply (classify_kind segment).
Qed.

Lemma template_parameters_are_extracted_witness :
  1 <= 4
  /\ nth_error (PyStr.split "/" example_path) 4 =
       Some "3f29c4a1b2e3445e9aa1d2c3b4e5f6a7"
  /\ classify "3f29c4a1b2e3445e9aa1d2c3b4e5f6a7" = Some "hash"
  /\ In (param_name "hash" 4)
        (extract_path_parameters (fst (standardize_path example_path))).
Proof.
  repeat (split; [first [reflexivity | lia]|]).
  apply (template_parameters_are_extracted example_path 4
           "3f29c4a1b2e3445e9aa1d2c3b4e5f6a7" "hash");
    first [reflexivity | lia].
Defined.

(** ** Merging two documents *)

Section DictMoreFacts.
Context {V : Type}.
Implicit Types (d : list (string * V)) (k : string) (v : V).

Lemma mem_set_same k v d : PyDict.mem k (PyDict.set k v d) = true.
Proof. unfold PyDict.mem. now rewrite get_set_same. Qed.

Lemma set_set k v v' d : PyDict.set k v' (PyDict.set k v d) = PyDict.set k v' d.
Proof.
  induction d as [|[k0 v0] d IH]; simpl.
  - now rewrite String.eqb_refl.
  - destruct (String.eqb k k0) eqn:E; simpl; rewrite E; [reflexivity|].
    now rewrite IH.
Qed.

(** Two assignments to different keys commute when the first key is
    already there. *)
Lemma set_comm k1 k2 v1 v2 d :
  k1 <> k2 -> PyDict.mem k1 d = true ->
  PyDict.set k1 v1 (PyDict.set k2 v2 d) = PyDict.set k2 v2 (PyDict.set k1 v1 d).
Proof.
  intros Hne. unfold PyDict.mem.
  induction d as [|[k v] d IH]; simpl; [discriminate|].
  destruct (String.eqb k1 k) eqn:E1.
  - apply String.eqb_eq in E1. subst k. intros _.
    assert (E2 : String.eqb k2 k1 = false) by (apply String.eqb_neq; congruence).
    rewrite E2. simpl. now rewrite String.eqb_refl, E2.
  - intros Hmem. destruct (String.eqb k2 k) eqn:E2; simpl; rewrite E1, ?E2;
      [reflexivity|]. now rewrite IH.
Qed.

Lemma set_at_first k v v0 d d' :
  ~ In k (PyDict.keys d) ->
  PyDict.set k v (d ++ (k, v0) :: d')%list = (d ++ (k, v) :: d')%list.
Proof.
  induction d as [|[k1 v1] d IH]; simpl; intros H.
  - now rewrite String.eqb_refl.
  - destruct (String.eqb k k1) eqn:E.
    + apply String.eqb_eq in E. subst. tauto.
    + rewrite IH; tauto.
Qed.

Lemma dict_split k v0 d :
  PyDict.get k d = Some v0 ->
  exists d1 d2, d = (d1 ++ (k, v0) :: d2)%list /\ ~ In k (PyDict.keys d1).
Proof.
  induction d as [|[k1 v1] d IH]; simpl; [discriminate|].
  destruct (String.eqb k k1) eqn:E.
  - apply String.eqb_eq in E. subst k1. intros [= ->].
    exists [], d. split; [reflexivity|]. simpl. tauto.
  - intros H. destruct (IH H) as (d1 & d2 & -> & Hnot).
    exists ((k1, v1) :: d1), d2. split; [reflexivity|].
    apply String.eqb_neq in E. simpl. intros [Heq|Hin]; [congruence|tauto].
Qed.

Lemma wf_split_after k v0 d1 d2 :
  PyDict.wf (d1 ++ (k, v0) :: d2)%list -> ~ In k (PyDict.keys d2).
Proof.
  unfold PyDict.wf, PyDict.keys. rewrite map_app. simpl. intros H.
  apply NoDup_remove_2 in H. intros Hin. apply H. apply in_or_app. now right.
Qed.

Lemma wf_split_parts k v0 d1 d2 :
  PyDict.wf (d1 ++ (k, v0) :: d2)%list -> PyDict.wf d1 /\ PyDict.wf d2.
Proof.
  unfold PyDict.wf, PyDict.keys. rewrite map_app. simpl. intros H.
  apply NoDup_remove_1 in H. split.
  - eapply NoDup_app_remove_r. exact H.
  - eapply NoDup_app_remove_l. exact H.
Qed.

End DictMoreFacts.

Lemma update_items_app target items items' :
  update_items target (items ++ items')%list =
  update_items (update_items target items) items'.
Proof. unfold update_items. apply fold_left_app. Qed.

Lemma update_items_wf target items :
  PyDict.wf target -> PyDict.wf (update_items target items).
Proof.
  revert target. induction items as [|[k v] items IH]; intros target H; simpl.
  - exact H.
  - apply IH. now apply wf_set.
Qed.

Lemma update_items_set_present m v items :
  forall target,
    ~ In m (PyDict.keys items) -> PyDict.mem m target = true ->
    update_items (PyDict.set m v target) items =
    PyDict.set m v (update_items target items).
Proof.
  induction items as [|[k v0] items IH]; intros target Hnot Hmem; simpl in *.
  - reflexivity.
  - assert (Hne : m <> k) by (intros ->; apply Hnot; now left).
    rewrite <- (set_comm m k v v0 target Hne Hmem).
    apply IH; [tauto|]. now rewrite mem_set_other.
Qed.

(** Updating with a dictionary in which one value was replaced or added
    is updating with the dictionary and then assigning that value. *)
Lemma update_items_set target m v items :
  PyDict.wf items ->
  update_items target (PyDict.set m v items) =
  PyDict.set m v (update_items target items).
Proof.
  intros Hwf. destruct (PyDict.get m items) as [v0|] eqn:E.
  - destruct (dict_split _ _ _ E) as (d1 & d2 & -> & Hnot1).
    pose proof (wf_split_after _ _ _ _ Hwf) as Hnot2.
    rewrite set_at_first by exact Hnot1.
    rewrite !update_items_app. simpl.
    rewrite <- (set_set m v0 v (update_items target d1)).
    apply update_items_set_present; [exact Hnot2|apply mem_set_same].
  - rewrite set_fresh by now apply get_None_keys.
    now rewrite update_items_app.
Qed.

Lemma get_update_items m target items :
  PyDict.wf items ->
  PyDict.get m (update_items target items) =
  match PyDict.get m items with
  | Some v => Some v
  | None => PyDict.get m target
  end.
Proof.
  revert target. induction items as [|[k v] items IH]; intros target Hwf; simpl.
  - reflexivity.
  - inversion Hwf as [|? ? Hnot Hwf']; subst. rewrite IH by exact Hwf'.
    destruct (String.eqb m k) eqn:E.
    + apply String.eqb_eq in E. subst k.
      assert (Hnone : PyDict.get m items = None).
      { destruct (PyDict.get m items) as [w|] eqn:G; [|reflexivity].
        apply get_In in G. exfalso. apply Hnot.
        change m with (fst (m, w)). now apply in_map. }
      now rewrite Hnone, get_set_same.
    + apply String.eqb_neq in E.
      destruct (PyDict.get m items); [reflexivity|].
      now apply get_set_other.
Qed.

(** *** Laying one dictionary of paths over another *)

Lemma overlay_path_spec paths path items :
  paths_wf paths ->
  overlay_path paths (path, PDict items) =
  PyDict.set path (PDict (update_items (methods_at paths path) items))
    (if PyDict.mem path paths then paths else PyDict.set path (PDict []) paths).
Proof.
  intros Hwf. unfold overlay_path, methods_at, PyDict.mem.
  destruct (PyDict.get path paths) as [v|] eqn:E.
  - destruct (paths_wf_get _ _ _ Hwf E) as (methods & -> & _). now rewrite E.
  - now rewrite get_set_same.
Qed.

Lemma overlay_path_wf paths item :
  paths_wf paths -> paths_wf (overlay_path paths item).
Proof.
  intros Hwf. destruct item as [path methods]. unfold overlay_path.
  set (paths1 := if PyDict.mem path paths then paths
                 else PyDict.set path (PDict []) paths).
  assert (H1 : paths_wf paths1).
  { subst paths1. destruct (PyDict.mem path paths); [exact Hwf|].
    apply paths_wf_set; [exact Hwf|constructor]. }
  destruct (PyDict.get path paths1) as [v|] eqn:E; [|exact H1].
  destruct (paths_wf_get _ _ _ H1 E) as (target & -> & Ht).
  destruct methods; try exact H1.
  apply paths_wf_set; [exact H1|]. now apply update_items_wf.
Qed.

Lemma overlay_wf paths new_paths :
  paths_wf paths -> paths_wf (overlay paths new_paths).
Proof.
  unfold overlay. revert paths.
  induction new_paths as [|item new_paths IH]; intros paths H; simpl; [exact H|].
  apply IH. now apply overlay_path_wf.
Qed.

Lemma overlay_path_other paths path value path' methods :
  path' <> path -> PyDict.mem path paths = true ->
  overlay_path (PyDict.set path value paths) (path', methods) =
    PyDict.set path value (overlay_path paths (path', methods))
  /\ PyDict.get path (overlay_path paths (path', methods)) = PyDict.get path paths.
Proof.
  intros Hne Hmem.
  assert (Hne' : path <> path') by congruence.
  unfold overlay_path. rewrite (mem_set_other path' path) by exact Hne.
  destruct (PyDict.mem path' paths) eqn:E.
  - rewrite (get_set_other path' path) by exact Hne.
    destruct (PyDict.get path' paths) as [[| | | | | |target]|];
      try (split; reflexivity);
      destruct methods; try (split; reflexivity).
    split; [|now apply get_set_other].
    symmetry. now apply set_comm.
  - rewrite <- (set_comm path path' value (PDict []) paths Hne' Hmem).
    rewrite (get_set_other path' path) by exact Hne.
    rewrite !get_set_same.
    assert (Hmem' : PyDict.mem path (PyDict.set path' (PDict []) paths) = true)
      by now rewrite mem_set_other.
    destruct methods; try (split; [reflexivity|now apply get_set_other]).
    split.
    + symmetry. now apply set_comm.
    + now rewrite !get_set_other by exact Hne'.
Qed.

Lemma overlay_others new_paths :
  forall paths path value,
    ~ In path (PyDict.keys new_paths) -> PyDict.mem path paths = true ->
    overlay (PyDict.set path value paths) new_paths =
      PyDict.set path value (overlay paths new_paths)
    /\ PyDict.get path (overlay paths new_paths) = PyDict.get path paths.
Proof.
  unfold overlay.
  induction new_paths as [|[path' methods] new_paths IH];
    intros paths path value Hnot Hmem; simpl in Hnot; cbn [fold_left];
    [now split|].
  assert (Hne : path' <> path) by (intros ->; apply Hnot; now left).
  destruct (overlay_path_other paths path value path' methods Hne Hmem)
    as [Hset Hget].
  rewrite Hset.
  assert (Hmem' : PyDict.mem path (overlay_path paths (path', methods)) = true).
  { unfold PyDict.mem in *. rewrite Hget. exact Hmem. }
  destruct (IH (overlay_path paths (path', methods)) path value
              (fun H => Hnot (or_intror H)) Hmem') as [IH1 IH2].
  split; [exact IH1|]. now rewrite IH2.
Qed.

(** Laying over the paths in which an operation was stored is storing
    the operation after laying over the paths. *)
Lemma overlay_store paths new_paths path method operation :
  paths_wf paths -> paths_wf new_paths ->
  overlay paths (store_operation path method operation new_paths) =
  store_operation path method operation (overlay paths new_paths).
Proof.
  intros Hwf Hnew.
  pose proof (overlay_wf paths new_paths Hwf) as Hout.
  rewrite (store_operation_spec path method operation new_paths Hnew).
  rewrite (store_operation_spec path method operation _ Hout).
  unfold methods_at at 1. unfold PyDict.mem at 1.
  destruct (PyDict.get path new_paths) as [v|] eqn:E.
  - destruct (paths_wf_get _ _ _ Hnew E) as (methods & -> & Hm).
    destruct (dict_split _ _ _ E) as (d1 & d2 & -> & Hnot1).
    pose proof (wf_split_after _ _ _ _ (proj1 Hnew)) as Hnot2.
    rewrite set_at_first by exact Hnot1.
    unfold overlay in *. rewrite !fold_left_app. cbn [fold_left].
    set (paths1 := fold_left overlay_path d1 paths) in *.
    assert (H1 : paths_wf paths1) by (apply (overlay_wf paths d1 Hwf)).
    rewrite !(overlay_path_spec paths1 path) by exact H1.
    rewrite (update_items_set _ method (PDict operation) methods Hm).
    set (merged := update_items (methods_at paths1 path) methods).
    destruct (PyDict.mem path paths1);
      (match goal with
       | |- fold_left overlay_path d2 (PyDict.set path ?value' ?base) = _ =>
           rewrite <- (set_set path (PDict merged) value' base);
           destruct (overlay_others d2 (PyDict.set path (PDict merged) base) path
                       value' Hnot2 (mem_set_same _ _ _)) as [Hset Hget]
       end;
       unfold overlay in Hset, Hget; rewrite Hset;
       unfold methods_at, PyDict.mem; rewrite Hget, get_set_same; reflexivity).
  - rewrite (set_fresh path (PDict []) new_paths) by now apply get_None_keys.
    rewrite set_at_first by now apply get_None_keys.
    unfold overlay in *. rewrite fold_left_app. cbn [fold_left].
    rewrite overlay_path_spec by exact Hout. reflexivity.
Qed.

(** *** [merge_openapi_specs] *)

Lemma merge_path_overlay paths path items :
  paths_wf paths ->
  merge_path (PDict paths) (path, PDict items) =
  Returns (PDict (overlay_path paths (path, PDict items))).
Proof.
  intros Hwf. unfold merge_path, overlay_path, update_at, PyDict.mem.
  destruct (PyDict.get path paths) as [v|] eqn:E.
  - destruct (paths_wf_get _ _ _ Hwf E) as (target & -> & _). now rewrite E.
  - now rewrite get_set_same.
Qed.

Lemma merge_paths_overlay new_paths :
  forall paths,
    paths_wf paths ->
    (forall k v, In (k, v) new_paths -> exists items, v = PDict items) ->
    merge_paths (PDict paths) new_paths = Returns (PDict (overlay paths new_paths)).
Proof.
  unfold overlay.
  induction new_paths as [|[path methods] new_paths IH]; intros paths Hwf Hd;
    cbn [merge_paths fold_left]; [reflexivity|].
  destruct (Hd path methods (or_introl eq_refl)) as [items ->].
  rewrite merge_path_overlay by exact Hwf. cbn [bind].
  apply IH; [now apply overlay_path_wf|].
  intros k v Hin. apply (Hd k v). now right.
Qed.

Lemma operation_at_in items template method :
  operation_at (PDict items) template method =
  match PyDict.get "paths" items with
  | Some paths => operation_in paths template method
  | None => None
  end.
Proof.
  unfold operation_at, operation_in, schema_get.
  now destruct (PyDict.get "paths" items) as [[| | | | | |paths]|].
Qed.

Lemma merge_path_lookup paths path items paths' template method :
  merge_path paths (path, PDict items) = Returns paths' ->
  PyDict.wf items ->
  operation_in paths' template method =
  if String.eqb template path
  then match PyDict.get method items with
       | Some operation => Some operation
       | None => operation_in paths template method
       end
  else operation_in paths template method.
Proof.
  intros H Hwf. destruct paths as [| | | | | |d]; try discriminate H.
  unfold merge_path, update_at in H.
  set (d1 := if PyDict.mem path d then d else PyDict.set path (PDict []) d) in *.
  destruct (PyDict.get path d1) as [[| | | | | |target]|] eqn:E;
    try discriminate H.
  cbn [update bind] in H. injection H as <-. cbn [operation_in].
  destruct (String.eqb template path) eqn:Et.
  - apply String.eqb_eq in Et. subst template. rewrite get_set_same.
    rewrite get_update_items by exact Hwf.
    destruct (PyDict.get method items); [reflexivity|].
    subst d1. unfold PyDict.mem in E.
    destruct (PyDict.get path d) as [v|] eqn:G.
    + rewrite G in E. now injection E as ->.
    + rewrite get_set_same in E. now injection E as <-.
  - apply String.eqb_neq in Et. rewrite get_set_other by exact Et.
    subst d1. destruct (PyDict.mem path d); [reflexivity|].
    now rewrite get_set_other by exact Et.
Qed.

Lemma paths_wf_tail item new_paths :
  paths_wf (item :: new_paths) -> paths_wf new_paths.
Proof.
  intros [Hwf Hd]. split.
  - now inversion Hwf.
  - intros t v Hin. apply (Hd t v). now right.
Qed.

Lemma merge_paths_lookup new_paths :
  forall paths paths' template method,
    merge_paths paths new_paths = Returns paths' ->
    paths_wf new_paths ->
    operation_in paths' template method =
    match operation_in (PDict new_paths) template method with
    | Some operation => Some operation
    | None => operation_in paths template method
    end.
Proof.
  induction new_paths as [|[path methods] new_paths IH];
    intros paths paths' template method H Hwf; cbn [merge_paths] in H.
  - injection H as <-. reflexivity.
  - destruct (proj2 Hwf path methods (or_introl eq_refl)) as (items & -> & Hitems).
    destruct (merge_path paths (path, PDict items)) as [paths1| |] eqn:E1;
      try discriminate H.
    cbn [bind] in H.
    rewrite (IH _ _ template method H (paths_wf_tail _ _ Hwf)).
    rewrite (merge_path_lookup _ _ _ _ template method E1 Hitems).
    cbn [operation_in PyDict.get].
    destruct (String.eqb template path) eqn:Et; [|reflexivity].
    apply String.eqb_eq in Et. subst template.
    assert (Hnone : PyDict.get path new_paths = None).
    { destruct (PyDict.get path new_paths) as [w|] eqn:G; [|reflexivity].
      apply get_In in G. destruct Hwf as [Hnd _]. inversion Hnd as [|? ? Hnot _].
      exfalso. apply Hnot. change path with (fst (path, w)). now apply in_map. }
    now rewrite Hnone.
Qed.

(** The steps of a merge that returns. *)
Lemma merge_returns existing_spec new_spec merged :
  merge_openapi_specs existing_spec new_spec = Returns merged ->
  let merged0 :=
    if PyDict.mem "paths" existing_spec then existing_spec
    else PyDict.set "paths" (PDict []) existing_spec in
  exists new_paths paths components1 components2,
    get_or (PDict []) (PyDict.get "paths" new_spec) = PDict new_paths
    /\ merge_paths (get_or PNone (PyDict.get "paths" merged0)) new_paths =
       Returns paths
    /\ let merged1 := PyDict.set "paths" paths merged0 in
       let merged2 :=
         if PyDict.mem "components" merged1 then merged1
         else PyDict.set "components"
                (PDict [("schemas", PDict []); ("securitySchemes", PDict [])])
                merged1 in
       merge_component "schemas" new_spec
         (get_or PNone (PyDict.get "components" merged2)) = Returns components1
       /\ merge_component "securitySchemes" new_spec components1 =
          Returns components2
       /\ merged = PyDict.set "components" components2 merged2.
Proof.
  intros H. cbv zeta. unfold merge_openapi_specs in H.
  destruct (get_or (PDict []) (PyDict.get "paths" new_spec))
    as [| | | | | |new_paths]; try discriminate H.
  match type of H with
  | bind (merge_paths ?p new_paths) _ = _ =>
      destruct (merge_paths p new_paths) as [paths| |] eqn:E0;
        try discriminate H
  end.
  cbn [bind] in H.
  match type of H with
  | bind (merge_component "schemas" new_spec ?c) _ = _ =>
      destruct (merge_component "schemas" new_spec c) as [components1| |] eqn:E1;
        try discriminate H
  end.
  cbn [bind] in H.
  destruct (merge_component "securitySchemes" new_spec components1)
    as [components2| |] eqn:E2; try discriminate H.
  cbn [bind] in H. injection H as <-.
  exists new_paths, paths, components1, components2. repeat split; auto.
Qed.

(** X19: when a merge returns and the new document holds dictionaries of
    dictionaries under [paths], the operation of the merged document
    under a template and a method is the one of the new document when it
    has one, and the one of the existing document otherwise: operations
    are laid over method by method, and none of the existing document is
    lost unless the new document has the same key. *)
Theorem merge_lays_new_operations_over :
  forall existing_spec new_spec merged,
    (forall new_paths,
        PyDict.get "paths" new_spec = Some (PDict new_paths) -> paths_wf new_paths) ->
    merge_openapi_specs existing_spec new_spec = Returns merged ->
    forall template method,
      operation_at (PDict merged) template method =
      match operation_at (PDict new_spec) template method with
      | Some operation => Some operation
      | None => operation_at (PDict existing_spec) template method
      end.
Proof.
  intros existing_spec new_spec merged Hshape H template method.
  apply merge_returns in H. cbv zeta in H.
  destruct H as (new_paths & paths & c1 & c2 & Hnew & Hpaths & _ & _ & ->).
  assert (Hwf : paths_wf new_paths).
  { destruct (PyDict.get "paths" new_spec) as [v|] eqn:E; simpl in Hnew.
    - subst v. now apply Hshape.
    - injection Hnew as <-. apply paths_wf_empty. }
  rewrite !operation_at_in.
  rewrite (get_set_other "paths" "components") by discriminate.
  assert (Hget : forall d : pydict,
             PyDict.get "paths"
               (if PyDict.mem "components" d then d
                else PyDict.set "components"
                       (PDict [("schemas", PDict []); ("securitySchemes", PDict [])])
                       d) = PyDict.get "paths" d).
  { intros d. destruct (PyDict.mem "components" d); [reflexivity|].
    now apply get_set_other. }
  rewrite Hget, get_set_same.
  rewrite (merge_paths_lookup _ _ _ template method Hpaths Hwf).
  assert (Hn : match PyDict.get "paths" new_spec with
               | Some p => operation_in p template method
               | None => None
               end = operation_in (PDict new_paths) template method).
  { destruct (PyDict.get "paths" new_spec) as [v|]; simpl in Hnew.
    - now subst v.
    - now injection Hnew as <-. }
  rewrite Hn. destruct (operation_in (PDict new_paths) template method);
    [reflexivity|].
  unfold PyDict.mem. destruct (PyDict.get "paths" existing_spec) as [v|] eqn:E.
  - now rewrite E.
  - now rewrite get_set_same.
Qed.

(** X20: a merge never changes what the existing document holds under a
    key other than [paths] and [components]: the [openapi], [info] and
    [security] entries of the new document never reach the result. *)
Theorem merge_keeps_existing_metadata :
  forall existing_spec new_spec merged key,
    merge_openapi_specs existing_spec new_spec = Returns merged ->
    key <> "paths" -> key <> "components" ->
    PyDict.get key merged = PyDict.get key existing_spec.
Proof.
  intros existing_spec new_spec merged key H Hp Hc.
  apply merge_returns in H. cbv zeta in H.
  destruct H as (new_paths & paths & c1 & c2 & _ & _ & _ & _ & ->).
  rewrite get_set_other by exact Hc.
  match goal with
  | |- PyDict.get key (if ?b then _ else _) = _ => destruct b
  end; rewrite ?(get_set_other key "components") by exact Hc;
    rewrite get_set_other by exact Hp;
    destruct (PyDict.mem "paths" existing_spec); try reflexivity;
    now apply get_set_other.
Qed.

(** X21: when the existing document has [components] without a
    [schemas] entry and the new document has one, the merge does not
    return: nothing adds the missing entry. *)
Theorem merge_needs_existing_schemas :
  forall existing_spec new_spec components new_components merged,
    PyDict.get "components" existing_spec = Some (PDict components) ->
    PyDict.get "schemas" components = None ->
    PyDict.get "components" new_spec = Some (PDict new_components) ->
    PyDict.mem "schemas" new_components = true ->
    merge_openapi_specs existing_spec new_spec <> Returns merged.
Proof.
  intros existing_spec new_spec components new_components merged
         He Hs Hn Hm H.
  apply merge_returns in H. cbv zeta in H.
  destruct H as (new_paths & paths & c1 & c2 & _ & _ & H1 & _ & _).
  assert (Hc : forall d : pydict,
             PyDict.get "components" d = Some (PDict components) ->
             PyDict.get "components" (PyDict.set "paths" paths d) =
             Some (PDict components)).
  { intros d Hd. now rewrite get_set_other by discriminate. }
  assert (He' : PyDict.get "components"
                  (PyDict.set "paths" (PDict []) existing_spec) =
                Some (PDict components)).
  { now rewrite get_set_other by discriminate. }
  assert (Hfail : merge_component "schemas" new_spec (PDict components) = Raises).
  { unfold merge_component. rewrite Hn. cbn [get_or py_in bind]. rewrite Hm.
    unfold PyDict.mem in Hm.
    destruct (PyDict.get "schemas" new_components) as [source|]; [|discriminate].
    unfold update_at. now rewrite Hs. }
  unfold PyDict.mem in H1.
  destruct (PyDict.get "paths" existing_spec);
    [rewrite (Hc _ He) in H1; cbv iota in H1; rewrite (Hc _ He) in H1
    |rewrite (Hc _ He') in H1; cbv iota in H1; rewrite (Hc _ He') in H1];
    cbn [get_or] in H1; rewrite Hfail in H1; discriminate.
Qed.

Lemma merge_needs_existing_schemas_witness :
  PyDict.get "components" [("components", PDict [])] = Some (PDict [])
  /\ PyDict.get "schemas" ([] : pydict) = None
  /\ PyDict.get "components" [("components", PDict [("schemas", PDict [])])] =
     Some (PDict [("schemas", PDict [])])
  /\ PyDict.mem "schemas" [("schemas", PDict [])] = true
  /\ merge_openapi_specs [("components", PDict [])]
       [("components", PDict [("schemas", PDict [])])] <> Returns [].
Proof.
  repeat (split; [reflexivity|]).
  apply (merge_needs_existing_schemas _ _ [] [("schemas", PDict [])]);
    reflexivity.
Defined.

Section MergeOfDocuments.

Variable json_loads : string -> option pyval.
Variable urlparse : string -> ParseResult.
Variable parse_qs : string -> list (string * list string).

#[local] Abbreviation step := (process_entry json_loads urlparse parse_qs).
#[local] Abbreviation paths_of := (assemble_paths json_loads urlparse parse_qs).
#[local] Abbreviation document_of :=
  (convert_har_to_openapi json_loads urlparse parse_qs).

Lemma overlay_assembled paths entries path_prefix :
  paths_wf paths ->
  overlay paths (paths_of entries path_prefix) =
  fold_left (step path_prefix) entries paths.
Proof.
  intros Hwf. induction entries as [|entry entries IH] using rev_ind.
  - reflexivity.
  - rewrite assemble_paths_snoc, fold_left_app. cbn [fold_left].
    rewrite <- IH. unfold process_entry.
    destruct (skipped urlparse path_prefix entry); [reflexivity|].
    apply overlay_store; [exact Hwf|apply assemble_paths_wf].
Qed.

(** X18: merging the document of one log with the document of another,
    made with the same prefix, returns the document of the two logs put
    end to end. *)
Theorem merge_of_documents_is_document_of_logs :
  forall path_prefix entries entries',
    merge_openapi_specs
      (document_items (document_of entries path_prefix))
      (document_items (document_of entries' path_prefix)) =
    Returns (document_items (document_of (entries ++ entries') path_prefix)).
Proof.
  intros path_prefix entries entries'.
  pose proof (assemble_paths_wf json_loads urlparse parse_qs entries path_prefix)
    as Hwf.
  pose proof (assemble_paths_wf json_loads urlparse parse_qs entries' path_prefix)
    as Hwf'.
  assert (Hpaths : paths_of (entries ++ entries') path_prefix =
                   overlay (paths_of entries path_prefix)
                     (paths_of entries' path_prefix)).
  { rewrite overlay_assembled by exact Hwf. unfold assemble_paths.
    apply fold_left_app. }
  unfold convert_har_to_openapi. rewrite Hpaths.
  remember (paths_of entries path_prefix) as paths.
  remember (paths_of entries' path_prefix) as paths'.
  cbn [document_items]. unfold merge_openapi_specs.
  cbn [PyDict.mem PyDict.get PyDict.set String.eqb Ascii.eqb Bool.eqb get_or].
  rewrite merge_paths_overlay;
    [|exact Hwf|intros k v Hin; destruct (proj2 Hwf' k v Hin) as (ms & -> & _); eauto].
  reflexivity.
Qed.

End MergeOfDocuments.

Lemma merge_lays_new_operations_over_witness :
  let existing_spec :=
    [("paths", PDict [("/a", PDict [("get", PInt 1); ("put", PInt 2)])])] in
  let new_spec :=
    [("paths", PDict [("/a", PDict [("put", PInt 3)])])] in
  let merged :=
    [("paths", PDict [("/a", PDict [("get", PInt 1); ("put", PInt 3)])]);
     ("components", PDict [("schemas", PDict []); ("securitySchemes", PDict [])])] in
  merge_openapi_specs existing_spec new_spec = Returns merged
  /\ operation_at (PDict merged) "/a" "get" =
     match operation_at (PDict new_spec) "/a" "get" with
     | Some operation => Some operation
     | None => operation_at (PDict existing_spec) "/a" "get"
     end.
Proof.
  cbv zeta. split; [reflexivity|].
  apply (merge_lays_new_operations_over
           [("paths", PDict [("/a", PDict [("get", PInt 1); ("put", PInt 2)])])]
           [("paths", PDict [("/a", PDict [("put", PInt 3)])])]);
    [|reflexivity].
  intros new_paths [= <-]. split.
  - repeat constructor. simpl. tauto.
  - intros t v [[= <- <-]|[]]. eexists. split; [reflexivity|].
    repeat constructor. simpl. tauto.
Defined.

Lemma merge_keeps_existing_metadata_witness :
  merge_openapi_specs [("info", PStr "old")] [("info", PStr "new")] =
    Returns [("info", PStr "old"); ("paths", PDict []);
             ("components",
              PDict [("schemas", PDict []); ("securitySchemes", PDict [])])]
  /\ "info" <> "paths" /\ "info" <> "components"
  /\ PyDict.get "info"
       [("info", PStr "old"); ("paths", PDict []);
        ("components",
         PDict [("schemas", PDict []); ("securitySchemes", PDict [])])] =
     PyDict.get "info" [("info", PStr "old")].
Proof.
  split; [reflexivity|]. split; [discriminate|]. split; [discriminate|].
  apply (merge_keeps_existing_metadata [("info", PStr "old")]
           [("info", PStr "new")]); [reflexivity|discriminate|discriminate].
Defined.

Lemma empty_schema_iff_unparseable_witness :
  Lib.json_loads "[1, 2]" = Some (PList [PInt 1; PInt 2])
  /\ exists type,
      schema_get "type" (extract_schema_from_json Lib.json_loads (PStr "[1, 2]")) =
      Some (PStr type).
Proof.
  split; [reflexivity|].
  apply (proj2 (empty_schema_iff_unparseable Lib.json_loads "[1, 2]")
           (PList [PInt 1; PInt 2])).
  reflexivity.
Defined.

Lemma mapping_covers_parameterized_segments_witness :
  In ("5", "id_3") (snd (standardize_path repeated_path))
  /\ In (placeholder "id_3") (PyStr.split "/" (fst (standardize_path repeated_path))).
Proof.
  assert (H : In ("5", "id_3") (snd (standardize_path repeated_path)))
    by (left; reflexivity).
  split; [exact H|].
  exact (proj2 (mapping_covers_parameterized_segments repeated_path) "5" "id_3" H).
Defined.

Lemma resource_of_template_is_placeholder_witness :
  PyStr.split "/" "/users/42/" = (["" ; "users"] ++ "42" :: [""])%list
  /\ (forall s, In s [""] -> s = "")
  /\ classify "42" = Some "id"
  /\ resource_of (fst (standardize_path "/users/42/")) = "{id_2}".
Proof.
  assert (H : forall s, In s [""] -> s = "").
  { intros s [<-|[]]. reflexivity. }
  split; [reflexivity|]. split; [exact H|]. split; [reflexivity|].
  apply (resource_of_template_is_placeholder Lib.json_loads
           "/users/42/" [""; "users"] "42" [""] "id" "get"
           (Har.request_of users_1) (Har.response_of users_1));
    [reflexivity|exact H|reflexivity].
Defined.

Lemma filtered_entry_leaves_no_trace_witness :
  PyStr.startswith "http"
    (scheme (Lib.urlparse "data:text/plain,hello")) = false
  /\ convert_har_to_openapi Lib.json_loads Lib.urlparse Lib.parse_qs
       ([users_1] ++ get_entry "data:text/plain,hello" "{}" :: [users_2]) None =
     convert_har_to_openapi Lib.json_loads Lib.urlparse Lib.parse_qs
       ([users_1] ++ [users_2]) None.
Proof.
  split; [reflexivity|].
  apply (filtered_entry_leaves_no_trace Lib.json_loads Lib.urlparse Lib.parse_qs
           None (get_entry "data:text/plain,hello" "{}")).
  left. reflexivity.
Defined.

Lemma operation_parameters_in_order_witness :
  let operation :=
    make_operation Lib.json_loads Lib.parse_qs "/users/{id_2}" [("42", "id_2")]
      "get" (Lib.urlparse "https://api.example.com/users/42?active=true&page=2")
      (Har.request_of users_1) (Har.response_of users_1) in
  operation_parameters operation =
    [query_parameter "active"; query_parameter "page";
     path_parameter ("42", "id_2")]
  /\ In (path_parameter ("42", "id_2")) (operation_parameters operation)
  /\ schema_get "required" (path_parameter ("42", "id_2")) = Some (PBool true).
Proof.
  cbv zeta. split; [reflexivity|].
  assert (H : In (path_parameter ("42", "id_2"))
                (operation_parameters
                   (make_operation Lib.json_loads Lib.parse_qs "/users/{id_2}"
                      [("42", "id_2")] "get"
                      (Lib.urlparse
                         "https://api.example.com/users/42?active=true&page=2")
                      (Har.request_of users_1) (Har.response_of users_1)))).
  { right. right. left. reflexivity. }
  split; [exact H|].
  exact (proj2 (proj2 (operation_parameters_in_order Lib.json_loads Lib.parse_qs
                         "/users/{id_2}" [("42", "id_2")] "get"
                         (Lib.urlparse
                            "https://api.example.com/users/42?active=true&page=2")
                         (Har.request_of users_1) (Har.response_of users_1)))
           _ H).
Defined.
